(** * AdvancedImage: a shallow embedding of [src/components/ui/AdvancedImage.tsx]

    The component has three parts, and the development follows them:
    - the source-set builder ([generateSources], [generateSrcSet]),
      pure string templating;
    - the load/error state tracker ([handleLoad], [handleError] and the two
      [useEffect] hooks), modelled by explicit state passing over the
      component's hook state and the part of the browser it touches
      (the children of [document.head], the console, the caller's callbacks);
    - the render selector, the JSX the component returns, modelled as a tree
      of virtual nodes.

    JavaScript strings are modelled as [string]; the paths the builder
    recognises are ASCII. *)

From Stdlib Require Import Bool Arith Lia List Ascii String DecimalString.
Import ListNotations.
Local Open Scope string_scope.
Set Warnings "-register-all".

(** ** JavaScript string primitives used by the builder *)

Module Js.

(** [String.prototype.startsWith]. *)
Definition startsWith (s p : string) : bool := String.prefix p s.

(** Case folding of one pattern or input character under the [i] flag of a
    regular expression without the [u] flag: the character is mapped to
    upper case.  A character outside ASCII is never folded onto an ASCII
    one, and the pattern is ASCII, so folding the ASCII letters is all the
    match depends on. *)
Definition canonicalize (c : ascii) : ascii :=
  let n := nat_of_ascii c in
  if ((97 <=? n) && (n <=? 122))%nat then ascii_of_nat (n - 32) else c.

(** Matching a literal of the pattern at the head of the input, ignoring
    case; the result is the input left after the literal. *)
Fixpoint match_literal_ci (pat s : string) : option string :=
  match pat with
  | EmptyString => Some s
  | String pc pat' =>
      match s with
      | EmptyString => None
      | String c s' =>
          if Ascii.eqb (canonicalize c) (canonicalize pc)
          then match_literal_ci pat' s'
          else None
      end
  end.

(** The alternatives of the group [(jpg|jpeg|png)], in the order the
    pattern lists them. *)
Definition raster_alternatives : list string := ["jpg"; "jpeg"; "png"].

(** Does [/\.(jpg|jpeg|png)$/i] match when the match starts at the head of
    [s]?  After the dot each alternative is tried in turn, and [$] (no [m]
    flag) asks for the end of the input. *)
Definition raster_regex_matches_here (s : string) : bool :=
  match match_literal_ci "." s with
  | None => false
  | Some r =>
      existsb
        (fun alt =>
           match match_literal_ci alt r with
           | Some EmptyString => true
           | _ => false
           end)
        raster_alternatives
  end.

(** [s.replace(/\.(jpg|jpeg|png)$/i, '')]: the pattern is not global, so the
    leftmost match is replaced.  Start positions are tried from the left; a
    match always runs to the end of the input, so replacing it by the empty
    string keeps exactly what precedes the start position. *)
Fixpoint replace_raster_ext (s : string) : string :=
  if raster_regex_matches_here s then EmptyString
  else match s with
       | EmptyString => EmptyString
       | String c s' => String c (replace_raster_ext s')
       end.

(** [Array.prototype.join]. *)
Definition join (sep : string) (l : list string) : string :=
  String.concat sep l.

End Js.

(** ** The source-set builder *)

(** The five breakpoint tags and [original]. *)
Record BreakpointMap : Type := mkBreakpointMap {
  xs : string;
  sm : string;
  md : string;
  lg : string;
  xl : string;
  original : string
}.

(** What one format holds: a plain URL, or the breakpoint mapping.  The code
    tells them apart with [typeof formatSources === 'string']. *)
Inductive FormatSources : Type :=
| Single (url : string)
| Breakpoints (m : BreakpointMap).

Record Sources : Type := mkSources {
  avif : FormatSources;
  webp : FormatSources;
  jpeg : FormatSources
}.

Definition generateSources (baseSrc : string) : Sources :=
  if negb (Js.startsWith baseSrc "/Collection/") then
    {| avif := Single baseSrc; webp := Single baseSrc; jpeg := Single baseSrc |}
  else
    let basePath := Js.replace_raster_ext baseSrc in
    {| avif := Breakpoints
         {| xs := basePath ++ "-xs.avif";
            sm := basePath ++ "-sm.avif";
            md := basePath ++ "-md.avif";
            lg := basePath ++ "-lg.avif";
            xl := basePath ++ "-xl.avif";
            original := basePath ++ ".avif" |};
       webp := Breakpoints
         {| xs := basePath ++ "-xs.webp";
            sm := basePath ++ "-sm.webp";
            md := basePath ++ "-md.webp";
            lg := basePath ++ "-lg.webp";
            xl := basePath ++ "-xl.webp";
            original := basePath ++ ".webp" |};
       jpeg := Breakpoints
         {| xs := basePath ++ "-xs.jpg";
            sm := basePath ++ "-sm.jpg";
            md := basePath ++ "-md.jpg";
            lg := basePath ++ "-lg.jpg";
            xl := basePath ++ "-xl.jpg";
            original := baseSrc |} |}.

Definition generateSrcSet (formatSources : FormatSources) : string :=
  match formatSources with
  | Single url => url
  | Breakpoints m =>
      Js.join ", "
        [ xs m ++ " 300w";
          sm m ++ " 400w";
          md m ++ " 600w";
          lg m ++ " 800w";
          xl m ++ " 1200w";
          original m ++ " 1600w" ]
  end.

(** ** Vocabulary of the specification, for stating the builder's contract *)

(** Lower-casing of an ASCII letter. *)
Definition to_lower (c : ascii) : ascii :=
  let n := nat_of_ascii c in
  if ((65 <=? n) && (n <=? 90))%nat then ascii_of_nat (n + 32) else c.

Fixpoint lowercase (s : string) : string :=
  match s with
  | EmptyString => EmptyString
  | String c s' => String (to_lower c) (lowercase s')
  end.

(** [e] is one of the raster extensions [.jpg], [.jpeg], [.png], in any mix
    of upper and lower case. *)
Definition isRasterExt (e : string) : bool :=
  let l := lowercase e in
  String.eqb l ".jpg" || String.eqb l ".jpeg" || String.eqb l ".png".

Fixpoint suffixes (s : string) : list string :=
  s :: match s with
       | EmptyString => []
       | String _ s' => suffixes s'
       end.

(** The URL ends in a raster extension. *)
Definition endsWithRasterExt (s : string) : bool :=
  existsb isRasterExt (suffixes s).

(** The mapping the builder synthesises from a base path, with [orig] as the
    jpeg [original]. *)
Definition variantsOf (basePath ext : string) (orig : string) : FormatSources :=
  Breakpoints
    {| xs := basePath ++ "-xs" ++ ext;
       sm := basePath ++ "-sm" ++ ext;
       md := basePath ++ "-md" ++ ext;
       lg := basePath ++ "-lg" ++ ext;
       xl := basePath ++ "-xl" ++ ext;
       original := orig |}.

(** The six URLs of a mapping in breakpoint order, the fixed width tokens,
    and one entry of a candidate list. *)
Definition breakpointUrls (m : BreakpointMap) : list string :=
  [xs m; sm m; md m; lg m; xl m; original m].

Definition widthTokens : list string :=
  ["300w"; "400w"; "600w"; "800w"; "1200w"; "1600w"].

Definition candidate (url_token : string * string) : string :=
  fst url_token ++ " " ++ snd url_token.

(** Every character, for deciding a property of characters by running it. *)
Definition all_ascii : list ascii := map ascii_of_nat (seq 0 256).

(** ** The component's interface *)

Inductive Loading : Type := Lazy | Eager.
Inductive Priority : Type := High | Low.

Definition Loading_eqb (a b : Loading) : bool :=
  match a, b with
  | Lazy, Lazy | Eager, Eager => true
  | _, _ => false
  end.

Definition Priority_eqb (a b : Priority) : bool :=
  match a, b with
  | High, High | Low, Low => true
  | _, _ => false
  end.

Definition Loading_attr (l : Loading) : string :=
  match l with Lazy => "lazy" | Eager => "eager" end.

Definition Priority_attr (p : Priority) : string :=
  match p with High => "high" | Low => "low" end.

(** An argument of [cn]: a class string, the value [false] that
    [cond && "cls"] leaves when [cond] is false, or [undefined]. *)
Inductive ClassValue : Type :=
| ClassName (s : string)
| ClassFalse
| ClassUndefined.

(** What the component takes from its surroundings and this file does not
    define: the timestamps of [performance.now()] (doubles) with their
    subtraction and [toFixed], the type of inline styles, the identity of a
    caller's callback, and [cn] of [@/lib/utils]. *)
Class Platform : Type := {
  Timestamp : Type;
  zero : Timestamp;
  elapsed : Timestamp -> Timestamp -> Timestamp;
  toFixed : Timestamp -> nat -> string;
  CSSProperties : Type;
  Callback : Type;
  cn : list ClassValue -> string
}.

Section Component.

Context {platform : Platform}.

(** [AdvancedImageProps]; an optional prop the caller leaves out is [None]. *)
Record AdvancedImageProps : Type := mkProps {
  src : string;
  alt : string;
  className : option string;
  loading : option Loading;
  priority : option Priority;
  sizes : option string;
  onLoad : option Callback;
  onError : option Callback;
  style : option CSSProperties;
  placeholder : option bool;
  blurDataURL : option string
}.

(** The defaults of the destructuring pattern in the parameter list. *)
Definition default {A : Type} (d : A) (o : option A) : A :=
  match o with Some a => a | None => d end.

Definition loadingOf (p : AdvancedImageProps) : Loading :=
  default Lazy (loading p).

Definition priorityOf (p : AdvancedImageProps) : Priority :=
  default Low (priority p).

Definition sizesOf (p : AdvancedImageProps) : string :=
  default
    "(max-width: 640px) 400px, (max-width: 1024px) 600px, (max-width: 1280px) 800px, 1200px"
    (sizes p).

Definition placeholderOf (p : AdvancedImageProps) : bool :=
  default true (placeholder p).

(** [className] as an argument of [cn]. *)
Definition classOf (p : AdvancedImageProps) : ClassValue :=
  match className p with Some c => ClassName c | None => ClassUndefined end.

(** Truthiness of an optional string: [undefined] and the empty string are
    falsy. *)
Definition truthy (o : option string) : bool :=
  match o with
  | Some s => negb (String.eqb s "")
  | None => false
  end.

(** ** Hook state *)

(** The three [useState] cells. *)
Record LoadState : Type := mkLoadState {
  isLoaded : bool;
  hasError : bool;
  loadStartTime : Timestamp
}.

Definition initialState : LoadState :=
  {| isLoaded := false; hasError := false; loadStartTime := zero |}.

Definition setIsLoaded (b : bool) (st : LoadState) : LoadState :=
  {| isLoaded := b; hasError := hasError st; loadStartTime := loadStartTime st |}.

Definition setHasError (b : bool) (st : LoadState) : LoadState :=
  {| isLoaded := isLoaded st; hasError := b; loadStartTime := loadStartTime st |}.

Definition setLoadStartTime (t : Timestamp) (st : LoadState) : LoadState :=
  {| isLoaded := isLoaded st; hasError := hasError st; loadStartTime := t |}.

(** ** The render selector *)

Inductive Handler : Type := HandleLoad | HandleError.

Inductive AttrValue : Type :=
| AString (s : string)
| AStyle (s : option CSSProperties)
| AHandler (h : Handler)
| ARef.

(** What a JSX expression evaluates to: an element, a text, the value
    [false] of a failed [cond && ...], or a fragment. *)
Inductive VNode : Type :=
| Element (tag : string) (attrs : list (string * AttrValue)) (children : list VNode)
| Text (s : string)
| VFalse
| Fragment (children : list VNode).

(** The nodes a JSX value puts into the tree: [false] puts none, a
    fragment puts its children's. *)
Fixpoint realise (v : VNode) : list VNode :=
  match v with
  | Element t a cs => [Element t a (flat_map realise cs)]
  | Text s => [Text s]
  | VFalse => []
  | Fragment cs => flat_map realise cs
  end.

(** The child nodes of the root the component returns. *)
Definition rootChildren (v : VNode) : list VNode :=
  match v with
  | Element _ _ cs => flat_map realise cs
  | _ => []
  end.

(** Does the tree hold an element with this tag? *)
Fixpoint hasTag (t : string) (v : VNode) : bool :=
  match v with
  | Element t' _ cs => String.eqb t t' || existsb (hasTag t) cs
  | Text _ => false
  | VFalse => false
  | Fragment cs => existsb (hasTag t) cs
  end.

Definition defaultSrc (fs : FormatSources) : string :=
  match fs with Single url => url | Breakpoints m => md m end.

(** The blurred, scaled low-resolution image. *)
Definition blurImage (p : AdvancedImageProps) (st : LoadState)
    (blur : string) : VNode :=
  Element "img"
    [ ("src", AString blur);
      ("alt", AString "");
      ("className",
        AString (cn
          [ ClassName "absolute inset-0 w-full h-full object-cover blur-sm scale-110 transition-opacity duration-300";
            (if isLoaded st then ClassName "opacity-0" else ClassFalse);
            classOf p ])) ]
    [].

(** The pulsing gradient block. *)
Definition pulseBlock (p : AdvancedImageProps) : VNode :=
  Element "div"
    [ ("className",
        AString (cn
          [ ClassName "absolute inset-0 bg-gradient-to-br from-gray-100 via-gray-50 to-gray-200 animate-pulse";
            classOf p ])) ]
    [].

(** The overlay, [blurDataURL ? <img .../> : <div .../>]. *)
Definition placeholderOverlay (p : AdvancedImageProps) (st : LoadState) : VNode :=
  if truthy (blurDataURL p)
  then blurImage p st (default "" (blurDataURL p))
  else pulseBlock p.

Definition sourceElement (p : AdvancedImageProps) (fs : FormatSources)
    (type : string) : VNode :=
  Element "source"
    [ ("srcSet", AString (generateSrcSet fs));
      ("sizes", AString (sizesOf p));
      ("type", AString type) ]
    [].

(** The [picture] element: AVIF, then WebP, then the JPEG [img].  The rest
    props spread onto the [img] are empty, [AdvancedImageProps] names every
    prop the component takes. *)
Definition pictureElement (p : AdvancedImageProps) (st : LoadState) : VNode :=
  let sources := generateSources (src p) in
  Element "picture" []
    [ sourceElement p (avif sources) "image/avif";
      sourceElement p (webp sources) "image/webp";
      Element "img"
        [ ("ref", ARef);
          ("src", AString (defaultSrc (jpeg sources)));
          ("srcSet", AString (generateSrcSet (jpeg sources)));
          ("sizes", AString (sizesOf p));
          ("alt", AString (alt p));
          ("loading", AString (Loading_attr (loadingOf p)));
          ("decoding", AString "async");
          ("fetchPriority", AString (Priority_attr (priorityOf p)));
          ("className",
            AString (cn
              [ ClassName "transition-opacity duration-500 ease-out";
                (ClassName (if isLoaded st then "opacity-100" else "opacity-0"));
                classOf p ]));
          ("onLoad", AHandler HandleLoad);
          ("onError", AHandler HandleError) ]
        [] ].

Definition errorBox (p : AdvancedImageProps) : VNode :=
  Element "div"
    [ ("className",
        AString (cn
          [ ClassName "bg-gradient-to-br from-gray-100 to-gray-200 flex items-center justify-center text-gray-400 text-sm";
            classOf p ]));
      ("style", AStyle (style p)) ]
    [ Text "Failed to load" ].

(** What the component returns for its props and hook state. *)
Definition render (p : AdvancedImageProps) (st : LoadState) : VNode :=
  if hasError st then errorBox p
  else
    Element "div"
      [ ("className", AString "relative overflow-hidden");
        ("style", AStyle (style p)) ]
      [ (if placeholderOf p && negb (isLoaded st)
         then Fragment [ placeholderOverlay p st ]
         else VFalse);
        pictureElement p st ].

(** ** The browser, as far as the component touches it *)

(** A child of [document.head].  [node_id] is the identity of the node
    object; the other fields are the properties the component assigns. *)
Record HeadNode : Type := mkHeadNode {
  node_id : nat;
  tagName : string;
  rel : string;
  as_ : string;
  href : string;
  fetchPriority : string
}.

(** What the component does that its surroundings can observe besides the
    tree: calls of the caller's callbacks and console output. *)
Inductive Action : Type :=
| Invoke (f : Callback)
| ConsoleLog (args : list string)
| ConsoleWarn (args : list string).

Record Browser : Type := mkBrowser {
  head : list HeadNode;     (* children of [document.head], in order *)
  next_ref : nat;           (* identities below this are taken *)
  actions : list Action     (* oldest first *)
}.

(** [process.env]. *)
Record Env : Type := mkEnv { NODE_ENV : string }.

(** [document.createElement('link')]: a new node, nothing assigned yet. *)
Definition createLink (br : Browser) : HeadNode * Browser :=
  ( {| node_id := next_ref br; tagName := "link"; rel := ""; as_ := "";
       href := ""; fetchPriority := "" |},
    {| head := head br; next_ref := S (next_ref br); actions := actions br |} ).

Definition sameNode (a b : HeadNode) : bool :=
  Nat.eqb (node_id a) (node_id b).

(** [document.head.contains(link)].  The head is modelled by the list of
    its children, without the nodes below them, so the test is whether the
    link is one of the children.  That is where [appendChild] below puts
    the component's link; a link that other code moved under another
    element of the head is outside this model. *)
Definition headContains (br : Browser) (n : HeadNode) : bool :=
  existsb (sameNode n) (head br).

(** [document.head.appendChild(link)], for a node not in the document. *)
Definition appendChild (n : HeadNode) (br : Browser) : Browser :=
  {| head := head br ++ [n]; next_ref := next_ref br; actions := actions br |}.

(** [document.head.removeChild(link)], for a child of the head: the
    cleanup calls it under [headContains] only.  The [NotFoundError] of the
    DOM call for a node that is not a child is not modelled; with the head
    as the list of its children the guard excludes it. *)
Definition removeChild (n : HeadNode) (br : Browser) : Browser :=
  {| head := filter (fun m => negb (sameNode n m)) (head br);
     next_ref := next_ref br;
     actions := actions br |}.

Definition emit (a : Action) (br : Browser) : Browser :=
  {| head := head br; next_ref := next_ref br; actions := actions br ++ [a] |}.

(** [f?.()]. *)
Definition callIfPresent (f : option Callback) (br : Browser) : Browser :=
  match f with
  | Some g => emit (Invoke g) br
  | None => br
  end.

(** ** A mounted instance *)

(** The props and the [sources] object of the last render, the hook state,
    and the cleanup the preload effect returned last, which holds the link
    it had appended. *)
Record Instance : Type := mkInstance {
  props : AdvancedImageProps;
  sourcesRef : nat;
  state : LoadState;
  preloadCleanup : option HeadNode
}.

(** *** Event handlers *)

Definition handleLoad (env : Env) (now : Timestamp) (i : Instance)
    (br : Browser) : Browser * Instance :=
  let loadTime := elapsed now (loadStartTime (state i)) in
  let i' := {| props := props i; sourcesRef := sourcesRef i;
               state := setIsLoaded true (state i);
               preloadCleanup := preloadCleanup i |} in
  let br1 := callIfPresent (onLoad (props i)) br in
  let br2 :=
    if String.eqb (NODE_ENV env) "development" then
      emit (ConsoleLog
              [ "🖼️ Advanced image loaded in " ++ toFixed loadTime 2 ++ "ms:";
                src (props i) ]) br1
    else br1 in
  (br2, i').

Definition handleError (i : Instance) (br : Browser) : Browser * Instance :=
  let i' := {| props := props i; sourcesRef := sourcesRef i;
               state := setHasError true (state i);
               preloadCleanup := preloadCleanup i |} in
  let br1 := callIfPresent (onError (props i)) br in
  let br2 :=
    emit (ConsoleWarn ["❌ Advanced image failed to load:"; src (props i)]) br1 in
  (br2, i').

(** *** Effects *)

(** The timing effect, [useEffect(() => setLoadStartTime(performance.now()),
    [src])]. *)
Definition timingEffect (now : Timestamp) (st : LoadState) : LoadState :=
  setLoadStartTime now st.

(** What the preload link points at. *)
Definition preloadHref (s : string) : string :=
  match avif (generateSources s) with
  | Single url => url
  | Breakpoints m => md m
  end.

Definition wantsPreload (p : AdvancedImageProps) : bool :=
  Loading_eqb (loadingOf p) Eager && Priority_eqb (priorityOf p) High.

(** The link after the four assignments. *)
Definition preloadLink (id : nat) (s : string) : HeadNode :=
  {| node_id := id; tagName := "link"; rel := "preload"; as_ := "image";
     href := preloadHref s; fetchPriority := "high" |}.

(** The preload effect: the browser after it, and the link its cleanup
    holds, if it returned one. *)
Definition preloadEffect (p : AdvancedImageProps) (br : Browser)
    : Browser * option HeadNode :=
  if wantsPreload p then
    let (link0, br1) := createLink br in
    let link := {| node_id := node_id link0; tagName := tagName link0;
                   rel := "preload"; as_ := "image";
                   href := preloadHref (src p); fetchPriority := "high" |} in
    (appendChild link br1, Some link)
  else (br, None).

(** The cleanup the preload effect returned. *)
Definition runPreloadCleanup (c : option HeadNode) (br : Browser) : Browser :=
  match c with
  | Some link => if headContains br link then removeChild link br else br
  | None => br
  end.

(** Did the dependencies [[src, loading, priority, sources]] change between
    two renders?  [sources] is compared by identity, as [Object.is] does. *)
Definition preloadDepsChanged (old : Instance) (p : AdvancedImageProps)
    (newSourcesRef : nat) : bool :=
  negb (String.eqb (src (props old)) (src p)
        && Loading_eqb (loadingOf (props old)) (loadingOf p)
        && Priority_eqb (priorityOf (props old)) (priorityOf p)
        && Nat.eqb (sourcesRef old) newSourcesRef).

(** *** Life cycle *)

(** Rendering allocates the [sources] object. *)
Definition allocSources (br : Browser) : nat * Browser :=
  ( next_ref br,
    {| head := head br; next_ref := S (next_ref br); actions := actions br |} ).

(** First render and commit: both effects run. *)
Definition mount (now : Timestamp) (p : AdvancedImageProps) (br : Browser)
    : Browser * Instance :=
  let (ref, br1) := allocSources br in
  let st := timingEffect now initialState in
  let (br2, cleanup) := preloadEffect p br1 in
  (br2, {| props := p; sourcesRef := ref; state := st;
           preloadCleanup := cleanup |}).

(** A later render and commit: an effect runs when one of its dependencies
    changed, after the cleanup it returned last. *)
Definition update (now : Timestamp) (p : AdvancedImageProps) (i : Instance)
    (br : Browser) : Browser * Instance :=
  let (ref, br1) := allocSources br in
  let st :=
    if String.eqb (src (props i)) (src p) then state i
    else timingEffect now (state i) in
  if preloadDepsChanged i p ref then
    let br2 := runPreloadCleanup (preloadCleanup i) br1 in
    let (br3, cleanup) := preloadEffect p br2 in
    (br3, {| props := p; sourcesRef := ref; state := st;
             preloadCleanup := cleanup |})
  else
    (br1, {| props := p; sourcesRef := ref; state := st;
             preloadCleanup := preloadCleanup i |}).

(** Unmounting runs the cleanup of the preload effect; the timing effect
    returns none. *)
Definition unmount (i : Instance) (br : Browser) : Browser :=
  runPreloadCleanup (preloadCleanup i) br.

(** What happens to a mounted or unmounted component.  [Render] is one
    render and commit, whoever asked for it: the parent with new props, or
    React itself after a state setter changed a cell, then with the props
    of the last render.  [LoadSignal] and [ErrorSignal] are the call of the
    handler alone, up to its return; the render that [setIsLoaded] or
    [setHasError] schedules is a [Render] event of its own, and it is in
    that render that the preload effect runs again.  What the image element
    and React do is therefore a list of events such as
    [[Render p t; Render p t; LoadSignal u; Render p u]]; the statements
    about runs range over every list. *)
Inductive Event : Type :=
| Render (p : AdvancedImageProps) (now : Timestamp)
| LoadSignal (now : Timestamp)
| ErrorSignal
| Unmount.

Definition World : Type := (Browser * option Instance)%type.

Definition step (env : Env) (w : World) (e : Event) : World :=
  let (br, oi) := w in
  match e, oi with
  | Render p now, None =>
      let (br', i) := mount now p br in (br', Some i)
  | Render p now, Some i =>
      let (br', i') := update now p i br in (br', Some i')
  | LoadSignal now, Some i =>
      let (br', i') := handleLoad env now i br in (br', Some i')
  | ErrorSignal, Some i =>
      let (br', i') := handleError i br in (br', Some i')
  | Unmount, Some i => (unmount i br, None)
  | _, None => (br, None)
  end.

Definition run (env : Env) (w : World) (es : list Event) : World :=
  fold_left (step env) es w.

(** What the component shows after a run. *)
Definition view (w : World) : option VNode :=
  match snd w with
  | Some i => Some (render (props i) (state i))
  | None => None
  end.

(** Identities are handed out once: every node of the head is older than
    [next_ref]. *)
Definition wellFormed (br : Browser) : bool :=
  forallb (fun n => Nat.ltb (node_id n) (next_ref br)) (head br).

(** The preload hint the component keeps in the head in world [w], as the
    node with identity [id]. *)
Definition expectedHints (oi : option Instance) (id : nat) : list HeadNode :=
  match oi with
  | Some i =>
      if wantsPreload (props i) then [preloadLink id (src (props i))] else []
  | None => []
  end.

(** What a run keeps true of the head: it is the head the run started
    from, followed by the link the last cleanup holds, when there is one;
    there is one exactly when the last render asked for a preload, and it
    is the link for that render's [src]. *)
Definition headInvariant (head0 : list HeadNode) (w : World) : Prop :=
  wellFormed (fst w) = true /\
  match snd w with
  | None => head (fst w) = head0
  | Some i =>
      match preloadCleanup i with
      | Some l =>
          wantsPreload (props i) = true
          /\ l = preloadLink (node_id l) (src (props i))
          /\ head (fst w) = (head0 ++ [l])%list
          /\ Forall (fun n => node_id n <> node_id l) head0
      | None =>
          wantsPreload (props i) = false /\ head (fst w) = head0
      end
  end.

End Component.

(** ** A platform to run the model on

    Whole milliseconds for timestamps, a list of declarations for a style,
    a name for a callback, and for [cn] the truthy class strings joined by
    spaces.  Subtraction of whole milliseconds stops at zero; the runs
    below are at increasing times, where it is the difference the code
    computes.  The theorems are for every platform; this one only runs
    them. *)

Definition joinClasses (cs : list ClassValue) : string :=
  Js.join " "
    (flat_map
       (fun c =>
          match c with
          | ClassName s => if String.eqb s "" then [] else [s]
          | ClassFalse => []
          | ClassUndefined => []
          end)
       cs).

Definition zeros (digits : nat) : string :=
  string_of_list_ascii (repeat "0"%char digits).

Definition toFixedNat (t digits : nat) : string :=
  NilEmpty.string_of_uint (Nat.to_uint t) ++ "." ++ zeros digits.

#[local] Instance demoPlatform : Platform := {|
  Timestamp := nat;
  zero := 0;
  elapsed := Nat.sub;
  toFixed := toFixedNat;
  CSSProperties := list (string * string);
  Callback := string;
  cn := joinClasses
|}.

Definition demoProps (s : string) : AdvancedImageProps :=
  {| src := s; alt := "A dress"; className := Some "rounded";
     loading := None; priority := None; sizes := None;
     onLoad := None; onError := Some "reportError"; style := None;
     placeholder := None; blurDataURL := Some "data:image/jpeg;base64,AAAA" |}.

Definition heroProps (s : string) : AdvancedImageProps :=
  {| src := s; alt := "Hero"; className := None;
     loading := Some Eager; priority := Some High; sizes := Some "100vw";
     onLoad := Some "markReady"; onError := None; style := None;
     placeholder := Some false; blurDataURL := None |}.

Definition production : Env := {| NODE_ENV := "production" |}.
Definition development : Env := {| NODE_ENV := "development" |}.

(** A document whose head already holds a stylesheet link. *)
Definition demoBrowser : Browser :=
  {| head := [ {| node_id := 0; tagName := "link"; rel := "stylesheet";
                  as_ := ""; href := "/assets/index.css"; fetchPriority := "" |} ];
     next_ref := 1;
     actions := [] |}.

Definition loadedState : LoadState :=
  {| isLoaded := true; hasError := false; loadStartTime := 3 |}.

Definition brokenState : LoadState :=
  {| isLoaded := true; hasError := true; loadStartTime := 3 |}.

(** The same caller without a blur source. *)
Definition plainProps (s : string) : AdvancedImageProps :=
  {| src := s; alt := "A dress"; className := Some "rounded";
     loading := None; priority := None; sizes := None;
     onLoad := None; onError := Some "reportError"; style := None;
     placeholder := None; blurDataURL := None |}.

Definition failedInstance : Instance :=
  {| props := demoProps "/Collection/a.jpg"; sourcesRef := 1;
     state := brokenState; preloadCleanup := None |}.

(** A load of [/Collection/a.jpg] fails, then [src] changes. *)
Definition failureThenNewSrc : list Event :=
  [ Render (demoProps "/Collection/a.jpg") 3;
    ErrorSignal;
    Render (demoProps "/Collection/b.jpg") 8 ].

(** An eager, high-priority image is shown, loads, and gets a new [src]. *)
Definition heroRun : list Event :=
  [ Render (heroProps "/Collection/hero.png") 10;
    LoadSignal (platform := demoPlatform) 25;
    Render (heroProps "/Collection/sale.jpg") 40 ].

(** ** Vocabulary for the properties of runs *)

(** The URL the builder was given, read back from what it built: the jpeg
    entry when it is a plain URL, its [original] otherwise. *)
Definition recoverSrc (s : Sources) : string :=
  match jpeg s with
  | Single url => url
  | Breakpoints m => original m
  end.

Definition isBreakpoints (fs : FormatSources) : bool :=
  match fs with
  | Single _ => false
  | Breakpoints _ => true
  end.

Section Runs.

Context {platform : Platform}.

(** A run during which the component stays mounted. *)
Definition noUnmount (es : list Event) : bool :=
  forallb (fun e => match e with Unmount => false | _ => true end) es.

(** A run of renders and unmounts, without a signal of the image. *)
Definition noSignal (es : list Event) : bool :=
  forallb
    (fun e =>
       match e with
       | Render _ _ => true
       | Unmount => true
       | LoadSignal _ => false
       | ErrorSignal => false
       end)
    es.

Definition isConsoleLog (a : Action) : bool :=
  match a with
  | ConsoleLog _ => true
  | _ => false
  end.

(** The [sources] object of the last render is older than [next_ref]. *)
Definition sourcesAllocated (w : World) : Prop :=
  match snd w with
  | Some i => sourcesRef i < next_ref (fst w)
  | None => True
  end.

End Runs.

(** The hero image rendered twice with the same props. *)
Definition heroTwice : list Event :=
  [ Render (heroProps "/Collection/hero.png") 10;
    Render (heroProps "/Collection/hero.png") 12 ].

Definition loadingInstance : Instance :=
  {| props := demoProps "/Collection/a.jpg"; sourcesRef := 1;
     state := {| isLoaded := false; hasError := false; loadStartTime := 3 |};
     preloadCleanup := None |}.

(** Renders with new and old [src] and signals of both kinds, no unmount. *)
Definition busyRun : list Event :=
  [ Render (demoProps "/Collection/b.jpg") 8;
    LoadSignal (platform := demoPlatform) 9;
    Render (heroProps "/Collection/c.jpg") 11;
    ErrorSignal (platform := demoPlatform);
    LoadSignal (platform := demoPlatform) 15 ].

(** The hero image is shown, taken away and shown again. *)
Definition heroRemount : list Event :=
  [ Render (heroProps "/Collection/hero.png") 10;
    Render (heroProps "/Collection/sale.jpg") 12;
    Unmount;
    Render (heroProps "/Collection/hero.png") 20 ].

(** * Proofs *)

Lemma all_ascii_complete (c : ascii) : In c all_ascii.
Proof.
  unfold all_ascii. rewrite <- (ascii_nat_embedding c).
  apply in_map, in_seq. pose proof (nat_ascii_bounded c). lia.
Qed.

Lemma forall_ascii (f : ascii -> bool) :
  forallb f all_ascii = true -> forall c, f c = true.
Proof.
  intros H c. rewrite forallb_forall in H. apply H, all_ascii_complete.
Qed.

Lemma canonicalize_eqb_lower (c pc : ascii) :
  Ascii.eqb (Js.canonicalize c) (Js.canonicalize pc)
  = Ascii.eqb (to_lower c) (to_lower pc).
Proof.
  revert pc. revert c.
  assert (H : forallb (fun c => forallb (fun pc =>
            Bool.eqb (Ascii.eqb (Js.canonicalize c) (Js.canonicalize pc))
                     (Ascii.eqb (to_lower c) (to_lower pc))) all_ascii) all_ascii = true)
    by (vm_compute; reflexivity).
  intros c pc.
  apply eqb_prop.
  exact (forall_ascii _ (forall_ascii _ H c) pc).
Qed.

Ltac fold_constants :=
  change (to_lower ".") with "."%char in *;
  change (to_lower "j") with "j"%char in *;
  change (to_lower "p") with "p"%char in *;
  change (to_lower "g") with "g"%char in *;
  change (to_lower "e") with "e"%char in *;
  change (to_lower "n") with "n"%char in *.

Ltac split_char_tests :=
  repeat first
    [ progress (cbn [Js.match_literal_ci existsb lowercase String.eqb orb andb])
    | rewrite canonicalize_eqb_lower; fold_constants
    | match goal with
      | |- context [Ascii.eqb (to_lower ?c) ?k] =>
          let E := fresh "E" in
          destruct (Ascii.eqb_spec (to_lower c) k) as [E|E];
          [ try rewrite E in * | ]
      end ].

Lemma regex_matches_here_isRasterExt (s : string) :
  Js.raster_regex_matches_here s = isRasterExt s.
Proof.
  unfold Js.raster_regex_matches_here, isRasterExt, Js.raster_alternatives.
  destruct s as [|c0 [|c1 [|c2 [|c3 [|c4 [|c5 s]]]]]];
    split_char_tests; try reflexivity; try congruence.
Qed.

Lemma isRasterExt_cases (e : string) :
  isRasterExt e = true ->
  lowercase e = ".jpg" \/ lowercase e = ".jpeg" \/ lowercase e = ".png".
Proof.
  unfold isRasterExt. intros H.
  apply orb_true_iff in H as [H|H]; [apply orb_true_iff in H as [H|H]|];
    apply String.eqb_eq in H; auto.
Qed.

Lemma string_length_app (a b : string) :
  String.length (a ++ b) = String.length a + String.length b.
Proof.
  induction a as [|c a IH]; cbn; [reflexivity | now rewrite IH].
Qed.

Lemma string_app_assoc (a b c : string) :
  (a ++ b) ++ c = a ++ (b ++ c).
Proof.
  induction a as [|x a IH]; cbn; [reflexivity | now rewrite IH].
Qed.

Lemma lowercase_app (a b : string) :
  lowercase (a ++ b) = lowercase a ++ lowercase b.
Proof.
  induction a as [|c a IH]; cbn; [reflexivity | now rewrite IH].
Qed.

Lemma lowercase_length (a : string) :
  String.length (lowercase a) = String.length a.
Proof.
  induction a as [|c a IH]; cbn; [reflexivity | now rewrite IH].
Qed.

(** A raster extension holds its only dot in front, so nothing longer that
    ends in one is a raster extension again. *)
Lemma isRasterExt_not_longer (c : ascii) (q e : string) :
  isRasterExt e = true -> isRasterExt (String c q ++ e) = false.
Proof.
  intros He. destruct (isRasterExt (String c q ++ e)) eqn:H; [exfalso|reflexivity].
  apply isRasterExt_cases in He. apply isRasterExt_cases in H.
  rewrite lowercase_app in H. cbn [lowercase] in H.
  assert (Hlen : forall f, String (to_lower c) (lowercase q) ++ lowercase e = f ->
                           S (String.length q + String.length (lowercase e))
                           = String.length f).
  { intros f <-. change (String (to_lower c) (lowercase q)) with (lowercase (String c q)).
    rewrite string_length_app, (lowercase_length (String c q)). reflexivity. }
  destruct He as [He|[He|He]]; rewrite He in *;
    destruct H as [H|[H|H]]; pose proof (Hlen _ H) as L; cbn in L;
    try lia;
    (destruct q; cbn in L; [cbn in H; discriminate H | lia]).
Qed.

Lemma replace_raster_ext_suffix (p e : string) :
  isRasterExt e = true -> Js.replace_raster_ext (p ++ e) = p.
Proof.
  intros He. induction p as [|c p IH].
  - cbn [append]. destruct e; cbn [Js.replace_raster_ext];
      now rewrite regex_matches_here_isRasterExt, He.
  - change (String c p ++ e) with (String c (p ++ e)).
    cbn [Js.replace_raster_ext].
    rewrite regex_matches_here_isRasterExt.
    change (String c (p ++ e)) with (String c p ++ e).
    rewrite (isRasterExt_not_longer c p e He). now rewrite IH.
Qed.

Lemma replace_raster_ext_none (s : string) :
  endsWithRasterExt s = false -> Js.replace_raster_ext s = s.
Proof.
  unfold endsWithRasterExt. induction s as [|c s IH]; cbn [suffixes existsb];
    intros H; apply orb_false_iff in H as [H1 H2];
    cbn [Js.replace_raster_ext]; rewrite regex_matches_here_isRasterExt, H1.
  - reflexivity.
  - now rewrite IH.
Qed.

(** [endsWithRasterExt] says what its name says. *)
Lemma endsWithRasterExt_spec (s : string) :
  endsWithRasterExt s = true <->
  exists p e, s = p ++ e /\ isRasterExt e = true.
Proof.
  unfold endsWithRasterExt. induction s as [|c s IH]; cbn [suffixes existsb].
  - rewrite orb_false_r. split.
    + intros H. now exists "", "".
    + intros (p & e & Hs & He). destruct p; [|discriminate Hs].
      cbn in Hs. now subst e.
  - rewrite orb_true_iff, IH. split.
    + intros [H|(p & e & -> & He)].
      * now exists "", (String c s).
      * now exists (String c p), e.
    + intros (p & e & Hs & He). destruct p as [|c' p]; cbn in Hs.
      * left. now subst e.
      * right. injection Hs as -> ->. now exists p, e.
Qed.

Lemma generateSources_under_prefix (baseSrc : string) :
  Js.startsWith baseSrc "/Collection/" = true ->
  generateSources baseSrc
  = let basePath := Js.replace_raster_ext baseSrc in
    {| avif := variantsOf basePath ".avif" (basePath ++ ".avif");
       webp := variantsOf basePath ".webp" (basePath ++ ".webp");
       jpeg := variantsOf basePath ".jpg" baseSrc |}.
Proof.
  intros H. unfold generateSources. rewrite H. reflexivity.
Qed.

(** ** The source-set builder: the claims *)

(** C4. A base URL that does not start with [/Collection/] comes back
    unchanged, as a single string, for each of avif, webp and jpeg. *)
Theorem generateSources_passthrough (baseSrc : string) :
  Js.startsWith baseSrc "/Collection/" = false ->
  generateSources baseSrc
  = {| avif := Single baseSrc; webp := Single baseSrc; jpeg := Single baseSrc |}.
Proof.
  intros H. unfold generateSources. now rewrite H.
Qed.

Lemma generateSources_passthrough_witness :
  generateSources "https://cdn.example/Collection/a.jpg"
  = {| avif := Single "https://cdn.example/Collection/a.jpg";
       webp := Single "https://cdn.example/Collection/a.jpg";
       jpeg := Single "https://cdn.example/Collection/a.jpg" |}.
Proof.
  apply (generateSources_passthrough "https://cdn.example/Collection/a.jpg").
  reflexivity.
Defined.

(** C5. For a base URL [p ++ e] under [/Collection/] whose end [e] is
    [.jpg], [.jpeg] or [.png] in any case, the extension is stripped and each
    format gets the five variants [p-xs], [p-sm], [p-md], [p-lg], [p-xl] and
    an [original]; the jpeg [original] is the input URL itself.  For
    [/Collection/photo.jpg] the avif [md] variant is
    [/Collection/photo-md.avif]. *)
Theorem generateSources_qualifying :
  (forall p e : string,
      Js.startsWith (p ++ e) "/Collection/" = true ->
      isRasterExt e = true ->
      generateSources (p ++ e)
      = {| avif := variantsOf p ".avif" (p ++ ".avif");
           webp := variantsOf p ".webp" (p ++ ".webp");
           jpeg := variantsOf p ".jpg" (p ++ e) |})
  /\ (exists m, avif (generateSources "/Collection/photo.jpg") = Breakpoints m
                /\ md m = "/Collection/photo-md.avif").
Proof.
  split.
  - intros p e Hpre He.
    rewrite (generateSources_under_prefix _ Hpre). cbv zeta.
    now rewrite (replace_raster_ext_suffix p e He).
  - eexists. split; reflexivity.
Qed.

Lemma generateSources_qualifying_witness :
  generateSources ("/Collection/Summer/Dress01" ++ ".JPEG")
  = {| avif := variantsOf "/Collection/Summer/Dress01" ".avif"
                 "/Collection/Summer/Dress01.avif";
       webp := variantsOf "/Collection/Summer/Dress01" ".webp"
                 "/Collection/Summer/Dress01.webp";
       jpeg := variantsOf "/Collection/Summer/Dress01" ".jpg"
                 "/Collection/Summer/Dress01.JPEG" |}.
Proof.
  apply (proj1 generateSources_qualifying "/Collection/Summer/Dress01" ".JPEG");
    reflexivity.
Defined.

(** C10. A [src] under [/Collection/] that does not end in [.jpg], [.jpeg]
    or [.png] is not passed through: the builder returns the breakpoint
    mapping with the whole [src], extension included, as the base path.  For
    [/Collection/photo.webp] the avif [md] variant is
    [/Collection/photo.webp-md.avif] and the jpeg [original] is
    [/Collection/photo.webp]. *)
Theorem generateSources_other_extension :
  (forall s : string,
      Js.startsWith s "/Collection/" = true ->
      endsWithRasterExt s = false ->
      generateSources s
      = {| avif := variantsOf s ".avif" (s ++ ".avif");
           webp := variantsOf s ".webp" (s ++ ".webp");
           jpeg := variantsOf s ".jpg" s |})
  /\ (exists a j,
         avif (generateSources "/Collection/photo.webp") = Breakpoints a
         /\ md a = "/Collection/photo.webp-md.avif"
         /\ jpeg (generateSources "/Collection/photo.webp") = Breakpoints j
         /\ original j = "/Collection/photo.webp").
Proof.
  split.
  - intros s Hpre Hext.
    rewrite (generateSources_under_prefix _ Hpre). cbv zeta.
    now rewrite (replace_raster_ext_none s Hext).
  - do 2 eexists. repeat split; reflexivity.
Qed.

Lemma generateSources_other_extension_witness :
  generateSources "/Collection/lookbook"
  = {| avif := variantsOf "/Collection/lookbook" ".avif" "/Collection/lookbook.avif";
       webp := variantsOf "/Collection/lookbook" ".webp" "/Collection/lookbook.webp";
       jpeg := variantsOf "/Collection/lookbook" ".jpg" "/Collection/lookbook" |}.
Proof.
  apply (proj1 generateSources_other_extension "/Collection/lookbook");
    reflexivity.
Defined.

(** C6. A single URL is returned as it is, without a width descriptor.  A
    breakpoint mapping gives six entries joined by [", "], each a URL, a
    space and a width token; the tokens are 300w, 400w, 600w, 800w, 1200w,
    1600w for xs, sm, md, lg, xl, original in this order, whatever the
    URLs are. *)
Theorem generateSrcSet_contract :
  (forall url : string, generateSrcSet (Single url) = url)
  /\ (forall m : BreakpointMap,
         generateSrcSet (Breakpoints m)
         = Js.join ", " (map candidate (combine (breakpointUrls m) widthTokens))
         /\ List.length (map candidate (combine (breakpointUrls m) widthTokens)) = 6
         /\ map snd (combine (breakpointUrls m) widthTokens)
            = ["300w"; "400w"; "600w"; "800w"; "1200w"; "1600w"]
         /\ map fst (combine (breakpointUrls m) widthTokens)
            = [xs m; sm m; md m; lg m; xl m; original m]
         /\ generateSrcSet (Breakpoints m)
            = xs m ++ " 300w, " ++ sm m ++ " 400w, " ++ md m ++ " 600w, "
              ++ lg m ++ " 800w, " ++ xl m ++ " 1200w, " ++ original m ++ " 1600w").
Proof.
  split; [reflexivity|].
  intros m. repeat split.
  cbn. now rewrite !string_app_assoc.
Qed.

(** ** The component *)

Section ComponentFacts.

Context {platform : Platform}.

Lemma Loading_eqb_eq (a b : Loading) : Loading_eqb a b = true -> a = b.
Proof. destruct a, b; cbn; congruence. Qed.

Lemma Priority_eqb_eq (a b : Priority) : Priority_eqb a b = true -> a = b.
Proof. destruct a, b; cbn; congruence. Qed.

(** The [picture] element has only leaves below it, so it goes into the
    tree as it is. *)
Lemma realise_pictureElement (p : AdvancedImageProps) (st : LoadState) :
  realise (pictureElement p st) = [pictureElement p st].
Proof. reflexivity. Qed.

Lemma realise_placeholderOverlay (p : AdvancedImageProps) (st : LoadState) :
  realise (placeholderOverlay p st) = [placeholderOverlay p st].
Proof. unfold placeholderOverlay. now destruct (truthy (blurDataURL p)). Qed.

Lemma overlay_is_not_picture (p q : AdvancedImageProps) (st st' : LoadState) :
  placeholderOverlay p st <> pictureElement q st'.
Proof.
  unfold placeholderOverlay. destruct (truthy (blurDataURL p)); discriminate.
Qed.

(** The children of the root in the content state: the overlay is there
    exactly while the placeholder is on and the image has not loaded. *)
Lemma rootChildren_content (p : AdvancedImageProps) (st : LoadState) :
  hasError st = false ->
  rootChildren (render p st)
  = if placeholderOf p && negb (isLoaded st)
    then [placeholderOverlay p st; pictureElement p st]
    else [pictureElement p st].
Proof.
  intros H. unfold render. rewrite H.
  destruct (placeholderOf p && negb (isLoaded st)).
  - cbn [rootChildren flat_map realise].
    rewrite realise_placeholderOverlay. reflexivity.
  - reflexivity.
Qed.

(** *** The head of the document along a run *)

Lemma wellFormed_Forall (br : Browser) :
  wellFormed br = true <->
  Forall (fun n => node_id n < next_ref br) (head br).
Proof.
  unfold wellFormed. rewrite forallb_forall, Forall_forall.
  split; intros H n Hn; specialize (H n Hn); now apply Nat.ltb_lt.
Qed.

Lemma filter_drops_last (head0 : list HeadNode) (l : HeadNode) :
  Forall (fun n => node_id n <> node_id l) head0 ->
  filter (fun m => negb (sameNode l m)) (head0 ++ [l])%list = head0.
Proof.
  intros H. rewrite filter_app. cbn. unfold sameNode at 2.
  rewrite Nat.eqb_refl. cbn. rewrite app_nil_r.
  induction H as [|n rest Hn _ IH]; cbn; [reflexivity|].
  unfold sameNode at 1.
  destruct (Nat.eqb_spec (node_id l) (node_id n)) as [E|_]; [congruence|].
  cbn. now rewrite IH.
Qed.

Lemma headContains_last (br : Browser) (head0 : list HeadNode) (l : HeadNode) :
  head br = (head0 ++ [l])%list -> headContains br l = true.
Proof.
  intros H. unfold headContains. rewrite H, existsb_app. cbn.
  unfold sameNode at 2. rewrite Nat.eqb_refl. now rewrite orb_true_r.
Qed.

(** After the cleanup the head is the one the run started from. *)
Lemma cleanup_restores_head (head0 : list HeadNode) (br : Browser)
    (i : Instance) :
  headInvariant head0 (br, Some i) ->
  let br' := runPreloadCleanup (preloadCleanup i) br in
  head br' = head0 /\ next_ref br' = next_ref br /\ actions br' = actions br.
Proof.
  intros [Hwf H]. cbn [fst snd] in *.
  destruct (preloadCleanup i) as [l|]; cbn.
  - destruct H as (_ & _ & Hh & Hfresh).
    rewrite (headContains_last br head0 l Hh). cbn.
    rewrite Hh. now rewrite filter_drops_last.
  - now destruct H.
Qed.

(** The effect appends the link for [src p], as a new node, exactly when
    the render asked for a preload. *)
Lemma preloadEffect_establishes (head0 : list HeadNode)
    (p : AdvancedImageProps) (ref : nat) (st : LoadState) (br : Browser) :
  head br = head0 ->
  wellFormed br = true ->
  headInvariant head0
    (fst (preloadEffect p br),
     Some {| props := p; sourcesRef := ref; state := st;
             preloadCleanup := snd (preloadEffect p br) |}).
Proof.
  intros Hh Hwf. unfold preloadEffect, headInvariant.
  pose proof (proj1 (wellFormed_Forall br) Hwf) as Hall.
  destruct (wantsPreload p) eqn:Hw; cbn [fst snd createLink appendChild
    props preloadCleanup head next_ref node_id].
  - split; [|repeat split].
    + apply wellFormed_Forall. cbn [head next_ref].
      apply Forall_app. split.
      * eapply Forall_impl; [|exact Hall]. cbn. intros; lia.
      * constructor; [cbn; lia | constructor].
    + assumption.
    + now rewrite Hh.
    + rewrite <- Hh. eapply Forall_impl; [|exact Hall]. cbn. intros; lia.
  - repeat split; assumption.
Qed.

Lemma allocSources_keeps (br : Browser) :
  head (snd (allocSources br)) = head br
  /\ actions (snd (allocSources br)) = actions br
  /\ (wellFormed br = true -> wellFormed (snd (allocSources br)) = true).
Proof.
  repeat split. intros H. apply wellFormed_Forall. cbn.
  apply wellFormed_Forall in H.
  eapply Forall_impl; [|exact H]. cbn. intros; lia.
Qed.

Lemma wellFormed_same_head (br br' : Browser) :
  head br' = head br -> next_ref br' = next_ref br ->
  wellFormed br = true -> wellFormed br' = true.
Proof. unfold wellFormed. now intros -> ->. Qed.

Lemma callIfPresent_keeps (f : option Callback) (br : Browser) :
  head (callIfPresent f br) = head br
  /\ next_ref (callIfPresent f br) = next_ref br.
Proof. now destruct f. Qed.

Lemma step_preserves_headInvariant (env : Env) (head0 : list HeadNode)
    (w : World) (e : Event) :
  headInvariant head0 w -> headInvariant head0 (step env w e).
Proof.
  destruct w as [br [i|]]; intros Hinv.
  - destruct e as [p now|now| |]; cbn [step].
    + (* a later render *)
      unfold update.
      destruct (allocSources br) as [ref br1] eqn:Ealloc.
      pose proof (allocSources_keeps br) as (Hh1 & _ & Hwf1).
      rewrite Ealloc in Hh1, Hwf1. cbn [snd] in Hh1, Hwf1.
      assert (Hinv1 : headInvariant head0 (br1, Some i)).
      { destruct Hinv as [Hwf H]. split; [now apply Hwf1|].
        cbn [fst snd] in *. now rewrite Hh1. }
      destruct (preloadDepsChanged i p ref) eqn:Hdeps.
      * pose proof (cleanup_restores_head head0 br1 i Hinv1) as (Hh2 & Hn2 & _).
        cbv zeta in Hh2, Hn2.
        set (br2 := runPreloadCleanup (preloadCleanup i) br1) in *.
        assert (Hwf2 : wellFormed br2 = true).
        { apply wellFormed_Forall. rewrite Hh2, Hn2.
          destruct Hinv1 as [Hwf H]. apply wellFormed_Forall in Hwf.
          cbn [fst snd] in *.
          destruct (preloadCleanup i) as [l|].
          - destruct H as (_ & _ & Hh & _). rewrite Hh in Hwf.
            now apply Forall_app in Hwf.
          - destruct H as [_ Hh]. now rewrite Hh in Hwf. }
        pose proof (preloadEffect_establishes head0 p ref
                      (if String.eqb (src (props i)) (src p) then state i
                       else timingEffect now (state i)) br2 Hh2 Hwf2) as Hfin.
        destruct (preloadEffect p br2) as [br3 cleanup]. exact Hfin.
      * (* unchanged dependencies: same src, loading and priority *)
        unfold preloadDepsChanged in Hdeps.
        apply negb_false_iff in Hdeps.
        apply andb_true_iff in Hdeps as [Hdeps _].
        apply andb_true_iff in Hdeps as [Hdeps Hprio].
        apply andb_true_iff in Hdeps as [Hdeps Hload].
        apply String.eqb_eq in Hdeps.
        assert (Hw : wantsPreload p = wantsPreload (props i)).
        { unfold wantsPreload.
          now rewrite (Loading_eqb_eq _ _ Hload), (Priority_eqb_eq _ _ Hprio). }
        destruct Hinv1 as [Hwf H]. split; [assumption|].
        cbn [fst snd props preloadCleanup] in *.
        rewrite Hw, <- Hdeps. exact H.
    + (* load signal *)
      unfold handleLoad. destruct Hinv as [Hwf H].
      set (br1 := callIfPresent (onLoad (props i)) br).
      pose proof (callIfPresent_keeps (onLoad (props i)) br) as [Hh Hn].
      fold br1 in Hh, Hn.
      destruct (String.eqb (NODE_ENV env) "development");
        (split; cbn [fst snd props preloadCleanup emit head] in *;
         [ eapply (wellFormed_same_head br); cbn; auto | now rewrite Hh ]).
    + (* error signal *)
      unfold handleError. destruct Hinv as [Hwf H].
      pose proof (callIfPresent_keeps (onError (props i)) br) as [Hh Hn].
      split; cbn [fst snd props preloadCleanup emit head] in *;
        [ eapply (wellFormed_same_head br); cbn; auto | now rewrite Hh ].
    + (* unmount *)
      unfold unmount.
      pose proof (cleanup_restores_head head0 br i Hinv) as (Hh & Hn & _).
      cbv zeta in Hh, Hn. split; cbn [fst snd]; [|assumption].
      apply wellFormed_Forall. rewrite Hh, Hn.
      destruct Hinv as [Hwf H]. apply wellFormed_Forall in Hwf.
      cbn [fst snd] in *.
      destruct (preloadCleanup i) as [l|].
      * destruct H as (_ & _ & Hh' & _). rewrite Hh' in Hwf.
        now apply Forall_app in Hwf.
      * destruct H as [_ Hh']. now rewrite Hh' in Hwf.
  - destruct e as [p now|now| |]; cbn [step]; try assumption.
    (* first render *)
    unfold mount.
    destruct (allocSources br) as [ref br1] eqn:Ealloc.
    pose proof (allocSources_keeps br) as (Hh1 & _ & Hwf1).
    rewrite Ealloc in Hh1, Hwf1. cbn [snd] in Hh1, Hwf1.
    destruct Hinv as [Hwf H]. cbn [fst snd] in *.
    pose proof (preloadEffect_establishes head0 p ref
                  (timingEffect now initialState) br1
                  (eq_trans Hh1 H) (Hwf1 Hwf)) as Hfin.
    destruct (preloadEffect p br1) as [br2 cleanup]. exact Hfin.
Qed.

Lemma run_preserves_headInvariant (env : Env) (head0 : list HeadNode)
    (es : list Event) :
  forall w, headInvariant head0 w -> headInvariant head0 (run env w es).
Proof.
  unfold run. induction es as [|e es IH]; intros w H; cbn [fold_left].
  - assumption.
  - apply IH. now apply step_preserves_headInvariant.
Qed.

Lemma headInvariant_expected (head0 : list HeadNode) (w : World) :
  headInvariant head0 w ->
  exists id,
    head (fst w) = (head0 ++ expectedHints (snd w) id)%list
    /\ ~ In id (map node_id head0).
Proof.
  intros [Hwf H]. unfold expectedHints.
  destruct (snd w) as [i|].
  - destruct (preloadCleanup i) as [l|].
    + destruct H as (Hw & Hl & Hh & Hfresh). exists (node_id l).
      rewrite Hw, <- Hl. split; [assumption|].
      rewrite in_map_iff. intros (n & Hn & Hin).
      rewrite Forall_forall in Hfresh. now apply (Hfresh n Hin).
    + destruct H as (Hw & Hh). exists (next_ref (fst w)).
      rewrite Hw, app_nil_r. split; [assumption|].
      rewrite in_map_iff. intros (n & Hn & Hin).
      apply wellFormed_Forall in Hwf. rewrite Hh in Hwf.
      rewrite Forall_forall in Hwf. specialize (Hwf n Hin). lia.
  - exists (next_ref (fst w)). rewrite app_nil_r. split; [assumption|].
    rewrite in_map_iff. intros (n & Hn & Hin).
    apply wellFormed_Forall in Hwf. rewrite H in Hwf.
    rewrite Forall_forall in Hwf. specialize (Hwf n Hin). lia.
Qed.

Lemma run_snoc (env : Env) (w : World) (es : list Event) (e : Event) :
  run env w (es ++ [e])%list = step env (run env w es) e.
Proof. unfold run. now rewrite fold_left_app. Qed.

Lemma step_Render_props (env : Env) (w : World) (p : AdvancedImageProps)
    (now : Timestamp) :
  exists i, snd (step env w (Render p now)) = Some i /\ props i = p.
Proof.
  destruct w as [br [i|]]; cbn [step].
  - unfold update. destruct (allocSources br) as [ref br1].
    destruct (preloadDepsChanged i p ref).
    + destruct (preloadEffect p _) as [br3 c]. eexists. split; reflexivity.
    + eexists. split; reflexivity.
  - unfold mount. destruct (allocSources br) as [ref br1].
    destruct (preloadEffect p br1) as [br2 c]. eexists. split; reflexivity.
Qed.

Lemma wantsPreload_true (p : AdvancedImageProps) :
  loadingOf p = Eager -> priorityOf p = High -> wantsPreload p = true.
Proof. unfold wantsPreload. now intros -> ->. Qed.

Lemma wantsPreload_false (p : AdvancedImageProps) :
  loadingOf p <> Eager \/ priorityOf p <> High -> wantsPreload p = false.
Proof.
  unfold wantsPreload.
  destruct (loadingOf p), (priorityOf p); cbn; intros [H|H]; congruence.
Qed.

(** ** The component: the claims *)

(** C1, as amended.  When a render brings a [src] different from the last
    one, [loadStartTime] becomes the current time; [isLoaded] and [hasError]
    keep the values they had. *)
Theorem src_change_restarts_timing_only (env : Env) (br : Browser)
    (i : Instance) (p : AdvancedImageProps) (now : Timestamp) :
  src p <> src (props i) ->
  option_map state (snd (step env (br, Some i) (Render p now)))
  = Some {| isLoaded := isLoaded (state i);
            hasError := hasError (state i);
            loadStartTime := now |}.
Proof.
  intros Hsrc. cbn [step]. unfold update.
  destruct (allocSources br) as [ref br1].
  assert (E : String.eqb (src (props i)) (src p) = false)
    by (apply String.eqb_neq; congruence).
  rewrite E.
  destruct (preloadDepsChanged i p ref).
  - destruct (preloadEffect p _) as [br3 c]. reflexivity.
  - reflexivity.
Qed.

(** C2, as amended.  In the content state with the placeholder on, the
    overlay is a child of the root, before the [picture] element, as long
    as [isLoaded] is false.  Once [isLoaded] is true and no blur source was
    given, the overlay is no longer in the tree: the root's only child is
    the [picture] element.  Nothing is said of the blurred image once
    [isLoaded] is true. *)
Theorem overlay_while_loading_and_block_after (p : AdvancedImageProps)
    (st : LoadState) :
  hasError st = false ->
  placeholderOf p = true ->
  (isLoaded st = false ->
   rootChildren (render p st)
   = [placeholderOverlay p st; pictureElement p st])
  /\ (isLoaded st = true ->
      truthy (blurDataURL p) = false ->
      rootChildren (render p st) = [pictureElement p st]
      /\ ~ In (pulseBlock p) (rootChildren (render p st))).
Proof.
  intros He Hp. rewrite (rootChildren_content p st He), Hp.
  split; intros ->; cbn [negb andb]; [reflexivity|].
  intros _. split; [reflexivity|].
  intros [H|[]]. discriminate H.
Qed.

(** C3.  Whenever [hasError] is true the component returns the error box
    and nothing else: a [div] whose only child is the text
    [Failed to load], with no [picture] and no [img] in it; [isLoaded]
    plays no part. *)
Theorem error_state_renders_only_error_box (p : AdvancedImageProps)
    (st : LoadState) :
  hasError st = true ->
  render p st
  = Element "div"
      [ ("className",
          AString (cn
            [ ClassName "bg-gradient-to-br from-gray-100 to-gray-200 flex items-center justify-center text-gray-400 text-sm";
              classOf p ]));
        ("style", AStyle (style p)) ]
      [ Text "Failed to load" ]
  /\ rootChildren (render p st) = [Text "Failed to load"]
  /\ hasTag "picture" (render p st) = false
  /\ hasTag "img" (render p st) = false.
Proof.
  intros H. unfold render. rewrite H. repeat split.
Qed.

(** C8.  With the [placeholder] prop false and no error, the root's only
    child is the [picture] element, loaded or not: neither the blurred
    image nor the pulsing block is rendered. *)
Theorem no_overlay_without_placeholder (p : AdvancedImageProps)
    (st : LoadState) :
  placeholder p = Some false ->
  hasError st = false ->
  rootChildren (render p st) = [pictureElement p st]
  /\ (forall blur, ~ In (blurImage p st blur) (rootChildren (render p st)))
  /\ ~ In (pulseBlock p) (rootChildren (render p st)).
Proof.
  intros Hp He. rewrite (rootChildren_content p st He).
  unfold placeholderOf. rewrite Hp. cbn [default andb].
  split; [reflexivity|].
  split; [intros blur|]; intros [H|[]]; discriminate H.
Qed.

(** C9.  On a failure signal [hasError] becomes true and nothing else of
    the state changes; the caller's [onError] is called once when there is
    one and not at all otherwise; a console warning with the [src] follows,
    whatever [NODE_ENV] is; the head of the document is left alone, and the
    next view is the error box, which holds no [img] that could load
    again. *)
Theorem handleError_contract (env : Env) (br : Browser) (i : Instance) :
  exists i',
    step env (br, Some i) ErrorSignal
    = ( {| head := head br;
           next_ref := next_ref br;
           actions :=
             (actions br
              ++ match onError (props i) with
                 | Some f => [Invoke f]
                 | None => []
                 end
              ++ [ConsoleWarn ["❌ Advanced image failed to load:";
                               src (props i)]])%list |},
        Some i' )
    /\ state i' = {| isLoaded := isLoaded (state i);
                     hasError := true;
                     loadStartTime := loadStartTime (state i) |}
    /\ props i' = props i
    /\ preloadCleanup i' = preloadCleanup i
    /\ view (step env (br, Some i) ErrorSignal) = Some (errorBox (props i))
    /\ hasTag "img" (errorBox (props i)) = false.
Proof.
  exists {| props := props i; sourcesRef := sourcesRef i;
            state := setHasError true (state i);
            preloadCleanup := preloadCleanup i |}.
  split; [|repeat split].
  cbn [step]. unfold handleError.
  destruct (onError (props i)) as [f|];
    unfold callIfPresent, emit; cbn [head next_ref actions];
    rewrite <- ?app_assoc; reflexivity.
Qed.

(** C7.  Along any run that starts unmounted, the head of the document is
    the head the run started from, followed by one preload link when the
    component is mounted and its last render had [loading] eager and
    [priority] high, and by nothing otherwise.  The link is a node that
    was not in the head before, with [rel] preload, [as] image, high fetch
    priority, and as [href] the avif [md] variant of the last render's
    [src], or that [src] itself in the passthrough case.  So after a render
    that changes [src], [loading] or [priority] the earlier link is gone,
    and after unmounting the head is the one the run started from. *)
Theorem preload_hint_lifecycle (env : Env) (br0 : Browser)
    (es : list Event) :
  wellFormed br0 = true ->
  (exists id,
      head (fst (run env (br0, None) es))
      = (head br0 ++ expectedHints (snd (run env (br0, None) es)) id)%list
      /\ ~ In id (map node_id (head br0)))
  /\ (forall p now,
         loadingOf p = Eager -> priorityOf p = High ->
         exists id,
           head (fst (run env (br0, None) (es ++ [Render p now])))
           = (head br0
              ++ [ {| node_id := id; tagName := "link"; rel := "preload";
                      as_ := "image";
                      href := defaultSrc (avif (generateSources (src p)));
                      fetchPriority := "high" |} ])%list
           /\ ~ In id (map node_id (head br0)))
  /\ (forall p now,
         loadingOf p <> Eager \/ priorityOf p <> High ->
         head (fst (run env (br0, None) (es ++ [Render p now]))) = head br0)
  /\ head (fst (run env (br0, None) (es ++ [Unmount]))) = head br0.
Proof.
  intros Hwf.
  assert (Hinit : headInvariant (head br0) (br0, None)) by (now split).
  assert (Hall : forall es', exists id,
             head (fst (run env (br0, None) es'))
             = (head br0 ++ expectedHints (snd (run env (br0, None) es')) id)%list
             /\ ~ In id (map node_id (head br0))).
  { intros es'. apply headInvariant_expected.
    now apply run_preserves_headInvariant. }
  split; [apply Hall|]. split; [|split].
  - intros p now Hl Hp.
    destruct (Hall (es ++ [Render p now])%list) as (id & Hh & Hfresh).
    exists id. split; [|assumption]. rewrite Hh, run_snoc.
    destruct (step_Render_props env (run env (br0, None) es) p now)
      as (i & -> & Hprops).
    unfold expectedHints. rewrite Hprops, (wantsPreload_true p Hl Hp).
    reflexivity.
  - intros p now Hno.
    destruct (Hall (es ++ [Render p now])%list) as (id & Hh & _).
    rewrite Hh, run_snoc.
    destruct (step_Render_props env (run env (br0, None) es) p now)
      as (i & -> & Hprops).
    unfold expectedHints. rewrite Hprops, (wantsPreload_false p Hno).
    apply app_nil_r.
  - destruct (Hall (es ++ [Unmount])%list) as (id & Hh & _).
    rewrite Hh, run_snoc.
    destruct (run env (br0, None) es) as [br [i|]]; cbn; apply app_nil_r.
Qed.

End ComponentFacts.

(** ** The claims on concrete runs *)

(** The amended C1 where a load had failed before [src] changed. *)
Lemma src_change_restarts_timing_only_witness :
  option_map state
    (snd (step production (demoBrowser, Some failedInstance)
            (Render (demoProps "/Collection/b.jpg") 8)))
  = Some {| isLoaded := true; hasError := true; loadStartTime := 8 |}.
Proof.
  apply (src_change_restarts_timing_only production demoBrowser
           failedInstance (demoProps "/Collection/b.jpg") 8).
  discriminate.
Defined.

(** C1 as stated fails: a load of [/Collection/a.jpg] ends in error, then
    [src] changes to [/Collection/b.jpg] at time 8; the state after the
    change is not the reset one, [hasError] is still true. *)
Lemma src_change_keeps_error_flag :
  option_map state (snd (run production (demoBrowser, None) failureThenNewSrc))
  = Some {| isLoaded := false; hasError := true; loadStartTime := 8 |}
  /\ ~ (option_map state
          (snd (run production (demoBrowser, None) failureThenNewSrc))
        = Some {| isLoaded := false; hasError := false; loadStartTime := 8 |}).
Proof.
  split; [reflexivity | discriminate].
Qed.

Lemma overlay_while_loading_and_block_after_witness :
  rootChildren (render (plainProps "/Collection/photo.jpg") loadedState)
  = [pictureElement (plainProps "/Collection/photo.jpg") loadedState].
Proof.
  apply (overlay_while_loading_and_block_after
           (plainProps "/Collection/photo.jpg") loadedState);
    reflexivity.
Defined.

(** C2 as stated fails: placeholder on, no error, image loaded; the overlay
    is not among the root's children, whose only member is the [picture]
    element, while it was there before the image loaded. *)
Lemma loaded_image_has_no_overlay :
  placeholderOf (plainProps "/Collection/photo.jpg") = true
  /\ hasError loadedState = false
  /\ isLoaded loadedState = true
  /\ ~ In (placeholderOverlay (plainProps "/Collection/photo.jpg") loadedState)
          (rootChildren (render (plainProps "/Collection/photo.jpg") loadedState))
  /\ rootChildren (render (plainProps "/Collection/photo.jpg") loadedState)
     = [pictureElement (plainProps "/Collection/photo.jpg") loadedState]
  /\ In (placeholderOverlay (plainProps "/Collection/photo.jpg") initialState)
        (rootChildren (render (plainProps "/Collection/photo.jpg") initialState)).
Proof.
  repeat split.
  - intros [H|[]]. discriminate H.
  - left. reflexivity.
Qed.

Lemma error_state_renders_only_error_box_witness :
  rootChildren (render (demoProps "/Collection/photo.jpg") brokenState)
  = [Text "Failed to load"].
Proof.
  apply (error_state_renders_only_error_box
           (demoProps "/Collection/photo.jpg") brokenState).
  reflexivity.
Defined.

Lemma no_overlay_without_placeholder_witness :
  rootChildren (render (heroProps "/Collection/hero.png") initialState)
  = [pictureElement (heroProps "/Collection/hero.png") initialState].
Proof.
  apply (no_overlay_without_placeholder
           (heroProps "/Collection/hero.png") initialState);
    reflexivity.
Defined.

Lemma preload_hint_lifecycle_witness :
  head (fst (run development (demoBrowser, None) (heroRun ++ [Unmount])))
  = head demoBrowser.
Proof.
  apply (preload_hint_lifecycle development demoBrowser heroRun).
  reflexivity.
Defined.

(** A fresh mount starts from [isLoaded = false], [hasError = false] and the
    current time. *)
Example mount_starts_fresh :
  option_map state
    (snd (step production (demoBrowser, None)
            (Render (demoProps "/Collection/a.jpg") 3)))
  = Some {| isLoaded := false; hasError := false; loadStartTime := 3 |}.
Proof. reflexivity. Qed.

(** While the image of [heroRun] is mounted, its one link follows the
    stylesheet, for the [src] of the last render. *)
Example hero_preload_while_mounted :
  head (fst (run development (demoBrowser, None) heroRun))
  = (head demoBrowser
     ++ [ {| node_id := 4; tagName := "link"; rel := "preload"; as_ := "image";
             href := "/Collection/sale-md.avif"; fetchPriority := "high" |} ])%list.
Proof. reflexivity. Qed.

Example error_signal_in_production :
  actions (fst (run production (demoBrowser, None)
                  [ Render (demoProps "/Collection/a.jpg") 3; ErrorSignal ]))
  = [ Invoke "reportError";
      ConsoleWarn ["❌ Advanced image failed to load:"; "/Collection/a.jpg"] ].
Proof. reflexivity. Qed.

(** What [render] returns for a loaded image with a blur source: the guard
    takes the blurred image out of the tree, so the [opacity-0] class its
    class list asks for on load is never rendered. *)
Example blurred_overlay_after_load :
  rootChildren (render (demoProps "/Collection/photo.jpg") loadedState)
  = [pictureElement (demoProps "/Collection/photo.jpg") loadedState].
Proof. reflexivity. Qed.

(** * Further properties of the builder *)

(** X1.  The base path is what is left of the URL when a trailing raster
    extension is taken off, and the URL itself when it has none: the URL is
    the base path followed by [e], where [e] is empty or one of [.jpg],
    [.jpeg], [.png] in any case, and [e] is empty exactly when the URL does
    not end in a raster extension. *)
Theorem replace_raster_ext_decomposes (s : string) :
  exists e,
    s = Js.replace_raster_ext s ++ e
    /\ (e = "" \/ isRasterExt e = true)
    /\ (e = "" <-> endsWithRasterExt s = false).
Proof.
  destruct (endsWithRasterExt s) eqn:H.
  - apply endsWithRasterExt_spec in H as (p & e & -> & He).
    exists e. rewrite (replace_raster_ext_suffix p e He).
    split; [reflexivity|]. split; [now right|].
    split; [|discriminate]. intros ->. discriminate He.
  - exists "". rewrite (replace_raster_ext_none s H).
    split; [|now split; [left|]].
    clear H. induction s as [|c s IH]; cbn; [reflexivity | now rewrite <- IH].
Qed.

(** X2.  The input URL can always be read back from the builder's result,
    as the jpeg entry or its [original]; so two different URLs never get the
    same source set. *)
Theorem generateSources_keeps_input :
  (forall s : string, recoverSrc (generateSources s) = s)
  /\ (forall a b : string, generateSources a = generateSources b -> a = b).
Proof.
  assert (H : forall s, recoverSrc (generateSources s) = s).
  { intros s. unfold generateSources.
    now destruct (Js.startsWith s "/Collection/"). }
  split; [exact H|].
  intros a b E. rewrite <- (H a), <- (H b). now rewrite E.
Qed.

Lemma generateSources_keeps_input_witness :
  "/Collection/coat.png" = "/Collection/coat.png".
Proof.
  apply (proj2 generateSources_keeps_input
           "/Collection/coat.png" "/Collection/coat.png").
  reflexivity.
Defined.

(** The three formats always have the same shape, and the prefix alone
    decides it: all three are breakpoint mappings when the URL starts with
    [/Collection/], all three are plain URLs otherwise. *)
Lemma generateSources_shape (s : string) :
  isBreakpoints (avif (generateSources s)) = Js.startsWith s "/Collection/"
  /\ isBreakpoints (webp (generateSources s)) = Js.startsWith s "/Collection/"
  /\ isBreakpoints (jpeg (generateSources s)) = Js.startsWith s "/Collection/".
Proof.
  unfold generateSources.
  now destruct (Js.startsWith s "/Collection/").
Qed.

Lemma generateSrcSet_variantsOf (b ext orig : string) :
  generateSrcSet (variantsOf b ext orig)
  = b ++ "-xs" ++ ext ++ " 300w, " ++ b ++ "-sm" ++ ext ++ " 400w, "
    ++ b ++ "-md" ++ ext ++ " 600w, " ++ b ++ "-lg" ++ ext ++ " 800w, "
    ++ b ++ "-xl" ++ ext ++ " 1200w, " ++ orig ++ " 1600w".
Proof.
  cbn. now rewrite !string_app_assoc.
Qed.

(** X3.  Two URLs under [/Collection/] that differ only in their raster
    extension share every generated candidate: the avif and webp mappings
    are equal, and so are the five width-tagged jpeg variants, which end in
    [.jpg] whatever the extension was; only the jpeg [original] tells them
    apart.  The [img] falls back to [p-md.jpg] and the preload link points
    at [p-md.avif]. *)
Theorem raster_extension_is_forgotten (p e1 e2 : string) :
  Js.startsWith (p ++ e1) "/Collection/" = true ->
  Js.startsWith (p ++ e2) "/Collection/" = true ->
  isRasterExt e1 = true ->
  isRasterExt e2 = true ->
  avif (generateSources (p ++ e1)) = avif (generateSources (p ++ e2))
  /\ webp (generateSources (p ++ e1)) = webp (generateSources (p ++ e2))
  /\ jpeg (generateSources (p ++ e1)) = variantsOf p ".jpg" (p ++ e1)
  /\ jpeg (generateSources (p ++ e2)) = variantsOf p ".jpg" (p ++ e2)
  /\ defaultSrc (jpeg (generateSources (p ++ e1))) = p ++ "-md.jpg"
  /\ defaultSrc (avif (generateSources (p ++ e1))) = p ++ "-md.avif".
Proof.
  intros H1 H2 E1 E2.
  rewrite (generateSources_under_prefix _ H1), (generateSources_under_prefix _ H2).
  cbv zeta.
  rewrite (replace_raster_ext_suffix p e1 E1), (replace_raster_ext_suffix p e2 E2).
  repeat split.
Qed.

Lemma raster_extension_is_forgotten_witness :
  avif (generateSources ("/Collection/coat" ++ ".png"))
  = avif (generateSources ("/Collection/coat" ++ ".JPG")).
Proof.
  apply (raster_extension_is_forgotten "/Collection/coat" ".png" ".JPG");
    reflexivity.
Defined.

(** X4.  The candidate lists of a URL under [/Collection/], with [b] its
    base path: each format lists [b-xs], [b-sm], [b-md], [b-lg], [b-xl] and
    an original with its own extension and the six width tokens; the last
    jpeg candidate is the URL as given. *)
Theorem srcSet_of_collection_url (s : string) :
  Js.startsWith s "/Collection/" = true ->
  generateSrcSet (avif (generateSources s))
  = Js.replace_raster_ext s ++ "-xs.avif 300w, "
    ++ Js.replace_raster_ext s ++ "-sm.avif 400w, "
    ++ Js.replace_raster_ext s ++ "-md.avif 600w, "
    ++ Js.replace_raster_ext s ++ "-lg.avif 800w, "
    ++ Js.replace_raster_ext s ++ "-xl.avif 1200w, "
    ++ Js.replace_raster_ext s ++ ".avif 1600w"
  /\ generateSrcSet (webp (generateSources s))
     = Js.replace_raster_ext s ++ "-xs.webp 300w, "
       ++ Js.replace_raster_ext s ++ "-sm.webp 400w, "
       ++ Js.replace_raster_ext s ++ "-md.webp 600w, "
       ++ Js.replace_raster_ext s ++ "-lg.webp 800w, "
       ++ Js.replace_raster_ext s ++ "-xl.webp 1200w, "
       ++ Js.replace_raster_ext s ++ ".webp 1600w"
  /\ generateSrcSet (jpeg (generateSources s))
     = Js.replace_raster_ext s ++ "-xs.jpg 300w, "
       ++ Js.replace_raster_ext s ++ "-sm.jpg 400w, "
       ++ Js.replace_raster_ext s ++ "-md.jpg 600w, "
       ++ Js.replace_raster_ext s ++ "-lg.jpg 800w, "
       ++ Js.replace_raster_ext s ++ "-xl.jpg 1200w, "
       ++ s ++ " 1600w".
Proof.
  intros H. rewrite (generateSources_under_prefix _ H). cbv zeta.
  cbn [avif webp jpeg]. rewrite !generateSrcSet_variantsOf.
  repeat split; cbn; now rewrite ?string_app_assoc.
Qed.

Lemma srcSet_of_collection_url_witness :
  generateSrcSet (jpeg (generateSources "/Collection/coat.PNG"))
  = "/Collection/coat-xs.jpg 300w, /Collection/coat-sm.jpg 400w, /Collection/coat-md.jpg 600w, /Collection/coat-lg.jpg 800w, /Collection/coat-xl.jpg 1200w, /Collection/coat.PNG 1600w".
Proof.
  apply (srcSet_of_collection_url "/Collection/coat.PNG").
  reflexivity.
Defined.

(** * Further properties of the component *)

Section RunFacts.

Context {platform : Platform}.

Lemma preloadEffect_actions (p : AdvancedImageProps) (br : Browser) :
  actions (fst (preloadEffect p br)) = actions br.
Proof. unfold preloadEffect. now destruct (wantsPreload p). Qed.

Lemma runPreloadCleanup_actions (c : option HeadNode) (br : Browser) :
  actions (runPreloadCleanup c br) = actions br.
Proof.
  destruct c as [l|]; cbn; [|reflexivity]. now destruct (headContains br l).
Qed.

Lemma runPreloadCleanup_next_ref (c : option HeadNode) (br : Browser) :
  next_ref (runPreloadCleanup c br) = next_ref br.
Proof.
  destruct c as [l|]; cbn; [|reflexivity]. now destruct (headContains br l).
Qed.

Lemma preloadEffect_next_ref (p : AdvancedImageProps) (br : Browser) :
  next_ref br <= next_ref (fst (preloadEffect p br)).
Proof. unfold preloadEffect. destruct (wantsPreload p); cbn; lia. Qed.

(** The state and props a later render leaves, whichever way the preload
    effect goes. *)
Lemma update_instance (now : Timestamp) (p : AdvancedImageProps)
    (i : Instance) (br : Browser) :
  props (snd (update now p i br)) = p
  /\ state (snd (update now p i br))
     = (if String.eqb (src (props i)) (src p) then state i
        else timingEffect now (state i))
  /\ actions (fst (update now p i br)) = actions br
  /\ sourcesRef (snd (update now p i br)) = next_ref br
  /\ next_ref br < next_ref (fst (update now p i br)).
Proof.
  unfold update. cbn [allocSources].
  destruct (preloadDepsChanged i p (next_ref br)).
  - match goal with
    | |- context [preloadEffect p ?b] =>
        pose proof (preloadEffect_actions p b) as Ha;
        pose proof (preloadEffect_next_ref p b) as Hn;
        destruct (preloadEffect p b) as [br3 c]
    end.
    cbn [fst snd props state sourcesRef] in *.
    rewrite runPreloadCleanup_actions in Ha.
    rewrite runPreloadCleanup_next_ref in Hn. cbn in Ha, Hn.
    repeat split; [assumption | lia].
  - cbn. repeat split. lia.
Qed.

Lemma mount_instance (now : Timestamp) (p : AdvancedImageProps) (br : Browser) :
  props (snd (mount now p br)) = p
  /\ state (snd (mount now p br)) = timingEffect now initialState
  /\ actions (fst (mount now p br)) = actions br
  /\ sourcesRef (snd (mount now p br)) = next_ref br
  /\ next_ref br < next_ref (fst (mount now p br)).
Proof.
  unfold mount. cbn [allocSources].
  match goal with
  | |- context [preloadEffect p ?b] =>
      pose proof (preloadEffect_actions p b) as Ha;
      pose proof (preloadEffect_next_ref p b) as Hn;
      destruct (preloadEffect p b) as [br2 c]
  end.
  cbn [fst snd props state sourcesRef] in *. cbn in Ha, Hn.
  repeat split; [assumption | lia].
Qed.

Lemma handleLoad_actions (env : Env) (now : Timestamp) (i : Instance)
    (br : Browser) :
  String.eqb (NODE_ENV env) "development" = false ->
  actions (fst (handleLoad env now i br))
  = (actions br
     ++ match onLoad (props i) with Some f => [Invoke f] | None => [] end)%list.
Proof.
  intros H. unfold handleLoad. rewrite H. cbn [fst].
  destruct (onLoad (props i)); cbn; now rewrite ?app_nil_r.
Qed.

(** X5.  On a load signal [isLoaded] becomes true and nothing else of the
    state changes, so an error that was set stays set; [onLoad] is called
    once when there is one; after it, only when [NODE_ENV] is
    [development], one console line reports the time since
    [loadStartTime], with two decimals, and the [src].  The head of the
    document is left alone. *)
Theorem handleLoad_contract (env : Env) (now : Timestamp) (br : Browser)
    (i : Instance) :
  step env (br, Some i) (LoadSignal now)
  = ( {| head := head br;
         next_ref := next_ref br;
         actions :=
           (actions br
            ++ match onLoad (props i) with
               | Some f => [Invoke f]
               | None => []
               end
            ++ (if String.eqb (NODE_ENV env) "development"
                then [ConsoleLog
                        [ ("🖼️ Advanced image loaded in "
                           ++ toFixed (elapsed now (loadStartTime (state i))) 2
                           ++ "ms:")%string;
                          src (props i) ]]
                else []))%list |},
      Some {| props := props i;
              sourcesRef := sourcesRef i;
              state := {| isLoaded := true;
                          hasError := hasError (state i);
                          loadStartTime := loadStartTime (state i) |};
              preloadCleanup := preloadCleanup i |} ).
Proof.
  cbn [step]. unfold handleLoad, setIsLoaded.
  destruct br as [h n a].
  destruct (onLoad (props i)) as [f|],
           (String.eqb (NODE_ENV env) "development");
    unfold callIfPresent, emit; cbn [head next_ref actions];
    rewrite <- ?app_assoc, ?app_nil_r; reflexivity.
Qed.

(** X6.  While the component stays mounted, neither flag ever goes back to
    false: through any renders, with the same or another [src], and any
    signals, an image that had loaded stays loaded, and one that had failed
    stays failed and keeps showing the error box. *)
Theorem flags_are_sticky (env : Env) (es : list Event) :
  forall (br : Browser) (i : Instance),
    noUnmount es = true ->
    exists br' i',
      run env (br, Some i) es = (br', Some i')
      /\ (isLoaded (state i) = true -> isLoaded (state i') = true)
      /\ (hasError (state i) = true ->
          hasError (state i') = true
          /\ view (run env (br, Some i) es) = Some (errorBox (props i'))).
Proof.
  induction es as [|e es IH]; intros br i Hes.
  - exists br, i. cbn. repeat split; auto.
    unfold render. now rewrite H.
  - cbn [noUnmount forallb] in Hes. apply andb_true_iff in Hes as [He Hes].
    assert (Hstep : exists br1 i1,
               step env (br, Some i) e = (br1, Some i1)
               /\ (isLoaded (state i) = true -> isLoaded (state i1) = true)
               /\ (hasError (state i) = true -> hasError (state i1) = true)).
    { destruct e as [p now|now| |]; try discriminate He; cbn [step].
      - pose proof (update_instance now p i br) as (_ & Hst & _).
        destruct (update now p i br) as [br1 i1]. cbn [snd] in Hst.
        exists br1, i1. split; [reflexivity|]. rewrite Hst.
        destruct (String.eqb (src (props i)) (src p)); cbn; auto.
      - destruct (handleLoad env now i br) as [br1 i1] eqn:E.
        exists br1, i1. split; [reflexivity|].
        unfold handleLoad in E. injection E as _ <-. cbn. auto.
      - destruct (handleError i br) as [br1 i1] eqn:E.
        exists br1, i1. split; [reflexivity|].
        unfold handleError in E. injection E as _ <-. cbn. auto. }
    destruct Hstep as (br1 & i1 & E1 & Hl1 & He1).
    destruct (IH br1 i1 Hes) as (br' & i' & E' & Hl' & He').
    exists br', i'. unfold run in *. cbn [fold_left]. rewrite E1.
    split; [assumption|]. split; auto.
Qed.

(** X7.  Outside development mode the component never writes a console
    line with [console.log]: a run leaves the [console.log] entries as they
    were. *)
Theorem no_console_log_outside_development (env : Env) (es : list Event) :
  NODE_ENV env <> "development" ->
  forall w : World,
    filter isConsoleLog (actions (fst (run env w es)))
    = filter isConsoleLog (actions (fst w)).
Proof.
  intros Henv. apply String.eqb_neq in Henv.
  induction es as [|e es IH]; intros w; [reflexivity|].
  unfold run in *. cbn [fold_left]. rewrite IH.
  destruct w as [br [i|]]; destruct e as [p now|now| |]; cbn [step fst];
    try reflexivity.
  - pose proof (update_instance now p i br) as (_ & _ & Ha & _).
    destruct (update now p i br). cbn [fst] in *. now rewrite Ha.
  - pose proof (handleLoad_actions env now i br Henv) as Ha.
    destruct (handleLoad env now i br) as [br1 i1]. cbn [fst] in *.
    rewrite Ha, filter_app.
    destruct (onLoad (props i)); cbn; now rewrite app_nil_r.
  - unfold handleError, callIfPresent, emit.
    destruct (onError (props i)); cbn [fst actions];
      rewrite !filter_app; cbn [filter isConsoleLog];
      now rewrite !app_nil_r.
  - unfold unmount. now rewrite runPreloadCleanup_actions.
  - pose proof (mount_instance now p br) as (_ & _ & Ha & _).
    destruct (mount now p br). cbn [fst] in *. now rewrite Ha.
Qed.

Lemma step_keeps_sourcesAllocated (env : Env) (w : World) (e : Event) :
  sourcesAllocated w -> sourcesAllocated (step env w e).
Proof.
  destruct w as [br [i|]]; destruct e as [p now|now| |];
    unfold sourcesAllocated; cbn [step fst snd]; intros H; try exact I.
  - pose proof (update_instance now p i br) as (_ & _ & _ & Hr & Hn).
    destruct (update now p i br). cbn [fst snd] in *. lia.
  - unfold handleLoad.
    destruct (String.eqb (NODE_ENV env) "development"),
             (onLoad (props i)); cbn; exact H.
  - unfold handleError. destruct (onError (props i)); cbn; exact H.
  - pose proof (mount_instance now p br) as (_ & _ & _ & Hr & Hn).
    destruct (mount now p br). cbn [fst snd] in *. lia.
Qed.

Lemma run_keeps_sourcesAllocated (env : Env) (es : list Event) :
  forall w, sourcesAllocated w -> sourcesAllocated (run env w es).
Proof.
  unfold run. induction es as [|e es IH]; intros w H; cbn [fold_left].
  - assumption.
  - apply IH. now apply step_keeps_sourcesAllocated.
Qed.

(** X8.  Every render of an eager, high-priority image makes a new preload
    link, also when no prop changed: the [sources] object is new on each
    render, so the effect always runs again.  After the render the head is
    the head the run started from followed by a link whose node did not
    exist before the render. *)
Theorem preload_link_is_recreated_on_every_render (env : Env) (br0 : Browser)
    (es : list Event) (p : AdvancedImageProps) (now : Timestamp) :
  wellFormed br0 = true ->
  loadingOf p = Eager ->
  priorityOf p = High ->
  head (fst (step env (run env (br0, None) es) (Render p now)))
  = (head br0
     ++ [preloadLink (S (next_ref (fst (run env (br0, None) es)))) (src p)])%list
  /\ Forall (fun n => node_id n < next_ref (fst (run env (br0, None) es)))
            (head (fst (run env (br0, None) es))).
Proof.
  intros Hwf Hl Hp.
  assert (Hinv : headInvariant (head br0) (run env (br0, None) es))
    by (apply run_preserves_headInvariant; now split).
  assert (Href : sourcesAllocated (run env (br0, None) es))
    by (apply run_keeps_sourcesAllocated; exact I).
  pose proof (wantsPreload_true p Hl Hp) as Hw.
  destruct (run env (br0, None) es) as [br [i|]].
  - split; [|now apply wellFormed_Forall; destruct Hinv].
    unfold sourcesAllocated in Href. cbn [fst snd] in Href.
    cbn [step fst]. unfold update. cbn [allocSources].
    assert (Hd : preloadDepsChanged i p (next_ref br) = true).
    { unfold preloadDepsChanged.
      destruct (Nat.eqb_spec (sourcesRef i) (next_ref br)) as [E|_]; [lia|].
      now rewrite andb_false_r. }
    rewrite Hd.
    set (br1 := {| head := head br; next_ref := S (next_ref br);
                   actions := actions br |}).
    assert (Hinv1 : headInvariant (head br0) (br1, Some i)).
    { destruct Hinv as [Hwf' H]. split; [|exact H].
      apply wellFormed_Forall. apply wellFormed_Forall in Hwf'. cbn.
      eapply Forall_impl; [|exact Hwf']. cbn. intros; lia. }
    pose proof (cleanup_restores_head (head br0) br1 i Hinv1) as (Hh2 & Hn2 & _).
    cbv zeta in Hh2, Hn2.
    unfold preloadEffect. rewrite Hw. cbn [createLink appendChild fst head node_id].
    rewrite Hh2, Hn2. reflexivity.
  - split; [|now apply wellFormed_Forall; destruct Hinv].
    destruct Hinv as [_ Hh]. cbn [fst snd] in Hh.
    cbn [step fst]. unfold mount. cbn [allocSources].
    unfold preloadEffect. rewrite Hw. cbn [createLink appendChild fst head
      next_ref node_id]. now rewrite Hh.
Qed.

Lemma step_silent_without_signal (env : Env) (w : World) (e : Event) :
  noSignal [e] = true ->
  actions (fst (step env w e)) = actions (fst w).
Proof.
  destruct w as [br [i|]]; destruct e as [p now|now| |]; cbn [step fst];
    intros H; try discriminate H; try reflexivity.
  - pose proof (update_instance now p i br) as (_ & _ & Ha & _).
    now destruct (update now p i br).
  - unfold unmount. apply runPreloadCleanup_actions.
  - pose proof (mount_instance now p br) as (_ & _ & Ha & _).
    now destruct (mount now p br).
Qed.

(** X9.  Rendering and unmounting call no callback and write nothing to
    the console: a render, first or later, with the same props or others,
    and an unmount leave the record of calls and console lines as it was,
    and so does every run made of renders and unmounts only. *)
Theorem renders_and_unmounts_are_silent (env : Env) :
  (forall w p now,
      actions (fst (step env w (Render p now))) = actions (fst w))
  /\ (forall w, actions (fst (step env w Unmount)) = actions (fst w))
  /\ (forall es w,
         noSignal es = true ->
         actions (fst (run env w es)) = actions (fst w)).
Proof.
  split; [|split].
  - intros w p now. now apply step_silent_without_signal.
  - intros w. now apply step_silent_without_signal.
  - unfold run. induction es as [|e es IH]; intros w H; [reflexivity|].
    cbn [noSignal forallb] in H. apply andb_true_iff in H as [He Hes].
    cbn [fold_left]. rewrite (IH _ Hes).
    apply step_silent_without_signal. cbn [noSignal forallb].
    now rewrite He.
Qed.

(** X10.  The reported load time counts from the last change of [src], not
    from the last render: after a render that keeps the [src], a load
    signal in development mode reports the time since the [loadStartTime]
    the instance already had. *)
Theorem load_time_counts_from_last_src_change (env : Env) (br : Browser)
    (i : Instance) (p : AdvancedImageProps) (t1 t2 : Timestamp) :
  NODE_ENV env = "development" ->
  src p = src (props i) ->
  actions (fst (run env (br, Some i) [Render p t1; LoadSignal t2]))
  = (actions br
     ++ match onLoad p with Some f => [Invoke f] | None => [] end
     ++ [ConsoleLog
           [ ("🖼️ Advanced image loaded in "
              ++ toFixed (elapsed t2 (loadStartTime (state i))) 2
              ++ "ms:")%string;
             src p ]])%list.
Proof.
  intros Henv Hsrc. unfold run. cbn [fold_left step].
  pose proof (update_instance t1 p i br) as (Hp & Hst & Ha & _).
  destruct (update t1 p i br) as [br1 i1]. cbn [fst snd] in *.
  rewrite <- Hsrc, String.eqb_refl in Hst.
  cbn [step]. unfold handleLoad. rewrite Henv, Hp, Hst. cbn [String.eqb fst].
  unfold callIfPresent, emit.
  destruct (onLoad p); cbn [actions]; rewrite Ha, <- ?app_assoc; reflexivity.
Qed.

(** X12.  The blurred image is in the tree only while [isLoaded] is false,
    so it is never rendered with the [opacity-0] class: its class list
    always holds [false] in that place. *)
Theorem blurred_image_never_fades (p : AdvancedImageProps) (st : LoadState)
    (blur : string) :
  In (blurImage p st blur) (rootChildren (render p st)) ->
  isLoaded st = false
  /\ hasError st = false
  /\ placeholderOf p = true
  /\ blurImage p st blur
     = Element "img"
         [ ("src", AString blur);
           ("alt", AString "");
           ("className",
             AString (cn
               [ ClassName "absolute inset-0 w-full h-full object-cover blur-sm scale-110 transition-opacity duration-300";
                 ClassFalse;
                 classOf p ])) ]
         [].
Proof.
  intros Hin.
  assert (H : isLoaded st = false /\ hasError st = false
              /\ placeholderOf p = true).
  { destruct (hasError st) eqn:He.
    - unfold render in Hin. rewrite He in Hin.
      destruct Hin as [Hin|[]]. discriminate Hin.
    - rewrite (rootChildren_content p st He) in Hin.
      destruct (placeholderOf p && negb (isLoaded st)) eqn:E.
      + apply andb_true_iff in E as [Ep El].
        apply negb_true_iff in El. auto.
      + destruct Hin as [Hin|[]]. discriminate Hin. }
  destruct H as (Hl & He & Hp). repeat split; try assumption.
  unfold blurImage. now rewrite Hl.
Qed.

(** X13.  For a [src] outside [/Collection/] the [picture] element offers
    the same URL three times: as the candidate list of the avif source, of
    the webp source and of the [img], whose [src] it is as well; the preload
    link points at it too. *)
Theorem passthrough_picture (p : AdvancedImageProps) (st : LoadState) :
  Js.startsWith (src p) "/Collection/" = false ->
  pictureElement p st
  = Element "picture" []
      [ Element "source"
          [ ("srcSet", AString (src p));
            ("sizes", AString (sizesOf p));
            ("type", AString "image/avif") ] [];
        Element "source"
          [ ("srcSet", AString (src p));
            ("sizes", AString (sizesOf p));
            ("type", AString "image/webp") ] [];
        Element "img"
          [ ("ref", ARef);
            ("src", AString (src p));
            ("srcSet", AString (src p));
            ("sizes", AString (sizesOf p));
            ("alt", AString (alt p));
            ("loading", AString (Loading_attr (loadingOf p)));
            ("decoding", AString "async");
            ("fetchPriority", AString (Priority_attr (priorityOf p)));
            ("className",
              AString (cn
                [ ClassName "transition-opacity duration-500 ease-out";
                  (ClassName (if isLoaded st then "opacity-100" else "opacity-0"));
                  classOf p ]));
            ("onLoad", AHandler HandleLoad);
            ("onError", AHandler HandleError) ] [] ]
  /\ preloadHref (src p) = src p.
Proof.
  intros H. unfold pictureElement, sourceElement, preloadHref, generateSources.
  rewrite H. split; reflexivity.
Qed.

End RunFacts.

(** ** The further properties on concrete runs *)

Lemma flags_are_sticky_witness :
  exists br' i',
    run development (demoBrowser, Some failedInstance) busyRun = (br', Some i')
    /\ (isLoaded (state failedInstance) = true -> isLoaded (state i') = true)
    /\ (hasError (state failedInstance) = true ->
        hasError (state i') = true
        /\ view (run development (demoBrowser, Some failedInstance) busyRun)
           = Some (errorBox (props i'))).
Proof.
  apply (flags_are_sticky development busyRun demoBrowser failedInstance).
  reflexivity.
Defined.

Lemma no_console_log_outside_development_witness :
  filter isConsoleLog
    (actions (fst (run production (demoBrowser, Some loadingInstance) busyRun)))
  = filter isConsoleLog (actions (fst (demoBrowser, Some loadingInstance))).
Proof.
  apply (no_console_log_outside_development production busyRun).
  discriminate.
Defined.

Lemma preload_link_is_recreated_on_every_render_witness :
  head (fst (step development (run development (demoBrowser, None) heroTwice)
               (Render (heroProps "/Collection/hero.png") 14)))
  = (head demoBrowser
     ++ [preloadLink
           (S (next_ref (fst (run development (demoBrowser, None) heroTwice))))
           "/Collection/hero.png"])%list
  /\ Forall
       (fun n => node_id n
                 < next_ref (fst (run development (demoBrowser, None) heroTwice)))
       (head (fst (run development (demoBrowser, None) heroTwice))).
Proof.
  apply (preload_link_is_recreated_on_every_render development demoBrowser
           heroTwice (heroProps "/Collection/hero.png") 14);
    reflexivity.
Defined.

Lemma load_time_counts_from_last_src_change_witness :
  actions (fst (run development (demoBrowser, Some loadingInstance)
                  [ Render (demoProps "/Collection/a.jpg") 40;
                    LoadSignal (platform := demoPlatform) 45 ]))
  = [ ConsoleLog ["🖼️ Advanced image loaded in 42.00ms:"; "/Collection/a.jpg"] ].
Proof.
  apply (load_time_counts_from_last_src_change development demoBrowser
           loadingInstance (demoProps "/Collection/a.jpg") 40 45);
    reflexivity.
Defined.

Lemma renders_and_unmounts_are_silent_witness :
  actions (fst (run development (demoBrowser, None) heroRemount))
  = actions demoBrowser.
Proof.
  apply (renders_and_unmounts_are_silent development).
  reflexivity.
Defined.

Lemma blurred_image_never_fades_witness :
  isLoaded (state loadingInstance) = false
  /\ hasError (state loadingInstance) = false
  /\ placeholderOf (props loadingInstance) = true
  /\ blurImage (props loadingInstance) (state loadingInstance)
       "data:image/jpeg;base64,AAAA"
     = Element "img"
         [ ("src", AString "data:image/jpeg;base64,AAAA");
           ("alt", AString "");
           ("className",
             AString (cn
               [ ClassName "absolute inset-0 w-full h-full object-cover blur-sm scale-110 transition-opacity duration-300";
                 ClassFalse;
                 classOf (props loadingInstance) ])) ]
         [].
Proof.
  apply (blurred_image_never_fades (props loadingInstance)
           (state loadingInstance) "data:image/jpeg;base64,AAAA").
  left. reflexivity.
Defined.

Lemma passthrough_picture_witness :
  preloadHref (src (demoProps "https://cdn.example/a.jpg"))
  = src (demoProps "https://cdn.example/a.jpg").
Proof.
  apply (passthrough_picture (demoProps "https://cdn.example/a.jpg")
           initialState).
  reflexivity.
Defined.

(** The link of the second render of [heroTwice] is not the link of the
    first, though no prop changed. *)
Example hero_link_replaced :
  map node_id (head (fst (run development (demoBrowser, None)
                            [Render (heroProps "/Collection/hero.png") 10])))
  = [0; 2]
  /\ map node_id (head (fst (run development (demoBrowser, None) heroTwice)))
     = [0; 4].
Proof. split; reflexivity. Qed.

(** A load signal and the render that follows it: the handler leaves the
    head alone, the render puts a new link in the place of the old one. *)
Example hero_link_replaced_after_load :
  map node_id
    (head (fst (run development (demoBrowser, None)
                  [ Render (heroProps "/Collection/hero.png") 10;
                    LoadSignal (platform := demoPlatform) 25 ])))
  = [0; 2]
  /\ map node_id
       (head (fst (run development (demoBrowser, None)
                     [ Render (heroProps "/Collection/hero.png") 10;
                       LoadSignal (platform := demoPlatform) 25;
                       Render (heroProps "/Collection/hero.png") 25 ])))
     = [0; 4].
Proof. split; reflexivity. Qed.
